(** * go-tabbyapi: error taxonomy, REST transport and SSE stream engine

    A shallow embedding of
    - package [errors] ([internal/errors/errors.go], lines 1-130; the same
      types are in [tabby/types.go], lines 464-689),
    - package [rest] (the client, in [internal/errors/errors.go] from line
      131 on),
    - package [stream] (the stream, in [internal/stream/stream_test.go] from
      line 332 on; [GenericStream] in [tabby/options.go], lines 695-858, is
      the same code line for line),
    with the properties the specification states about them.

    Go strings are byte sequences: they are embedded as [string], one
    [ascii] per byte.  Go's [int] is embedded as [Z]; the code only compares
    status codes, it never does arithmetic on them. *)

From Stdlib Require Import String Ascii List ZArith Lia Bool Arith.
From Stdlib Require Import DecimalString.
From Equations Require Import Equations.
Import ListNotations.

Open Scope string_scope.

(** ** The parts of Go's standard library the code calls *)

Module GoStrings.

Definition LF : ascii := "010"%char.
Definition CR : ascii := "013"%char.
Definition colon : ascii := ":"%char.

Definition nl : string := String LF EmptyString.
Definition crnl : string := String CR (String LF EmptyString).

Definition bytes (l : list nat) : string :=
  string_of_list_ascii (map ascii_of_nat l).

Definition isEmpty (s : string) : bool :=
  match s with EmptyString => true | String _ _ => false end.

(** [strings.HasPrefix(s, p)] *)
Definition HasPrefix (s p : string) : bool := String.prefix p s.

(** [s[n:]], for [n <= len(s)] (the code guards every slice by
    [HasPrefix]). *)
Fixpoint from (n : nat) (s : string) : string :=
  match n, s with
  | O, _ => s
  | S n', String _ s' => from n' s'
  | S _, EmptyString => EmptyString
  end.

(** [strings.Contains(s, string(c))] *)
Fixpoint ContainsByte (c : ascii) (s : string) : bool :=
  match s with
  | EmptyString => false
  | String d s' => if Ascii.eqb d c then true else ContainsByte c s'
  end.

(** [strings.Split(s, string(c))]: the substrings between the
    separators; never empty: splitting the empty string gives one empty
    substring. *)
Fixpoint Split (c : ascii) (s : string) : list string :=
  match s with
  | EmptyString => [EmptyString]
  | String d s' =>
      if Ascii.eqb d c then EmptyString :: Split c s'
      else match Split c s' with
           | h :: t => String d h :: t
           | [] => [String d EmptyString]
           end
  end.

(** [strings.SplitN(s, string(c), 2)]: cut at the first separator. *)
Fixpoint SplitN2 (c : ascii) (s : string) : list string :=
  match s with
  | EmptyString => [EmptyString]
  | String d s' =>
      if Ascii.eqb d c then [EmptyString; s']
      else match SplitN2 c s' with
           | [h] => [String d h]
           | h :: t => String d h :: t
           | [] => [String d EmptyString]
           end
  end.

Definition reverse (s : string) : string :=
  string_of_list_ascii (rev (list_ascii_of_string s)).

(** [strings.TrimRight(s, string(c))]: drop every trailing [c]. *)
Fixpoint dropLeading (c : ascii) (s : string) : string :=
  match s with
  | String d s' => if Ascii.eqb d c then dropLeading c s' else s
  | EmptyString => EmptyString
  end.

Definition TrimRight (s : string) (c : ascii) : string :=
  reverse (dropLeading c (reverse s)).

(** [strings.TrimSpace]: white space is [unicode.IsSpace], decoded from
    UTF-8.  The ASCII members are TAB, LF, VT, FF, CR and SPACE; the others
    are U+0085, U+00A0 (two bytes), U+1680, U+2000..U+200A, U+2028, U+2029,
    U+202F, U+205F and U+3000 (three bytes).  A byte sequence that is not
    the shortest encoding of one of these decodes to something that is not
    white space, so trimming a rune is trimming one of these byte
    sequences. *)
Definition asciiSpace (c : ascii) : bool :=
  let n := nat_of_ascii c in
  (((9 <=? n) && (n <=? 13)) || (n =? 32))%nat.

Definition space2 (a b : ascii) : bool :=
  ((nat_of_ascii a =? 194) &&
   ((nat_of_ascii b =? 133) || (nat_of_ascii b =? 160)))%nat.

Definition space3 (a b c : ascii) : bool :=
  let x := nat_of_ascii a in
  let y := nat_of_ascii b in
  let z := nat_of_ascii c in
  (((x =? 225) && (y =? 154) && (z =? 128))
   || ((x =? 226) && (y =? 128)
       && (((128 <=? z) && (z <=? 138)) || (z =? 168) || (z =? 169) || (z =? 175)))
   || ((x =? 226) && (y =? 129) && (z =? 159))
   || ((x =? 227) && (y =? 128) && (z =? 128)))%nat.

(** [strings.TrimLeftFunc(s, unicode.IsSpace)] *)
Fixpoint TrimLeftSpace (s : string) : string :=
  match s with
  | EmptyString => EmptyString
  | String a s1 =>
      if asciiSpace a then TrimLeftSpace s1
      else match s1 with
           | String b s2 =>
               if space2 a b then TrimLeftSpace s2
               else match s2 with
                    | String c s3 => if space3 a b c then TrimLeftSpace s3 else s
                    | EmptyString => s
                    end
           | EmptyString => s
           end
  end.

(** The same scan over the reversed string: the last rune is white space
    exactly when the string ends with one of the encodings. *)
Fixpoint trimLeftSpaceRev (s : string) : string :=
  match s with
  | EmptyString => EmptyString
  | String a s1 =>
      if asciiSpace a then trimLeftSpaceRev s1
      else match s1 with
           | String b s2 =>
               if space2 b a then trimLeftSpaceRev s2
               else match s2 with
                    | String c s3 => if space3 c b a then trimLeftSpaceRev s3 else s
                    | EmptyString => s
                    end
           | EmptyString => s
           end
  end.

Definition TrimRightSpace (s : string) : string :=
  reverse (trimLeftSpaceRev (reverse s)).

Definition TrimSpace (s : string) : string :=
  TrimRightSpace (TrimLeftSpace s).

(** [strings.Join(l, sep)] *)
Fixpoint Join (l : list string) (sep : string) : string :=
  match l with
  | [] => EmptyString
  | [x] => x
  | x :: rest => x ++ sep ++ Join rest sep
  end.

(** [fmt.Sprintf("%d", n)] *)
Definition itoa (n : Z) : string := NilZero.string_of_int (Z.to_int n).

End GoStrings.
Import GoStrings.

(** [http.StatusOK] and friends. *)
Module http.
Definition StatusNoContent : Z := 204.
Definition StatusBadRequest : Z := 400.
Definition StatusUnauthorized : Z := 401.
Definition StatusForbidden : Z := 403.
Definition StatusNotFound : Z := 404.
Definition StatusTooManyRequests : Z := 429.
Definition StatusInternalServerError : Z := 500.
Definition StatusGatewayTimeout : Z := 504.
End http.

(** Errors that come from outside the library: [io.EOF], the two context
    errors, and everything else ([net/http], [encoding/json], a failing
    reader), kept by its message. *)
Inductive lib_error : Type :=
| io_EOF
| context_Canceled
| context_DeadlineExceeded
| opaque_error (msg : string).

Definition lib_error_string (e : lib_error) : string :=
  match e with
  | io_EOF => "EOF"
  | context_Canceled => "context canceled"
  | context_DeadlineExceeded => "context deadline exceeded"
  | opaque_error msg => msg
  end.

(** ** internal/errors/errors.go *)

Record APIError : Type := mkAPIError {
  api_StatusCode : Z;
  api_Message : string;
  api_Details : option string;
  api_RequestID : string
}.

Record RequestError : Type := mkRequestError {
  req_Message : string;
  req_StatusCode : Z;
  req_Err : option lib_error
}.

Record StreamError : Type := mkStreamError {
  str_Message : string;
  str_Err : option lib_error
}.

(** A Go [error] value as the transport and the stream return it. *)
Inductive error : Type :=
| Lib (e : lib_error)
| API (e : APIError)
| Request (e : RequestError)
| Stream_ (e : StreamError).

Definition APIError_Error (e : APIError) : string :=
  if negb (isEmpty (api_RequestID e)) then
    "tabby API error (status " ++ itoa (api_StatusCode e) ++ ", request ID: "
      ++ api_RequestID e ++ "): " ++ api_Message e
  else
    "tabby API error (status " ++ itoa (api_StatusCode e) ++ "): " ++ api_Message e.

Definition APIError_Code (e : APIError) : string :=
  if (api_StatusCode e =? http.StatusBadRequest)%Z then "invalid_request"
  else if (api_StatusCode e =? http.StatusUnauthorized)%Z then "authentication_error"
  else if (api_StatusCode e =? http.StatusForbidden)%Z then "permission_error"
  else if (api_StatusCode e =? http.StatusNotFound)%Z then "not_found"
  else if (api_StatusCode e =? http.StatusTooManyRequests)%Z then "rate_limit_exceeded"
  else if (api_StatusCode e >=? 500)%Z then "server_error"
  else "api_error".

Definition APIError_HTTPStatusCode (e : APIError) : Z := api_StatusCode e.

Definition RequestError_Error (e : RequestError) : string :=
  match req_Err e with
  | Some c => "request error: " ++ req_Message e ++ ": " ++ lib_error_string c
  | None => "request error: " ++ req_Message e
  end.

Definition RequestError_Code (e : RequestError) : string := "request_error".

Definition RequestError_HTTPStatusCode (e : RequestError) : Z :=
  if negb (req_StatusCode e =? 0)%Z then req_StatusCode e
  else http.StatusInternalServerError.

Definition RequestError_Unwrap (e : RequestError) : option lib_error := req_Err e.

Definition StreamError_Error (e : StreamError) : string :=
  match str_Err e with
  | Some c => "stream error: " ++ str_Message e ++ ": " ++ lib_error_string c
  | None => "stream error: " ++ str_Message e
  end.

Definition StreamError_Code (e : StreamError) : string := "stream_error".

Definition StreamError_HTTPStatusCode (e : StreamError) : Z :=
  http.StatusInternalServerError.

Definition StreamError_Unwrap (e : StreamError) : option lib_error := str_Err e.

(** Predefined error values.  A Go composite literal leaves the fields it
    does not name at their zero value. *)
Definition ErrInvalidRequest : RequestError :=
  mkRequestError "invalid request parameters" http.StatusBadRequest None.
Definition ErrAuthentication : APIError :=
  mkAPIError http.StatusUnauthorized "authentication failed" None EmptyString.
Definition ErrPermission : APIError :=
  mkAPIError http.StatusForbidden "permission denied" None EmptyString.
Definition ErrNotFound : APIError :=
  mkAPIError http.StatusNotFound "resource not found" None EmptyString.
Definition ErrServerError : APIError :=
  mkAPIError http.StatusInternalServerError "server error" None EmptyString.
Definition ErrTimeout : RequestError :=
  mkRequestError "request timed out" http.StatusGatewayTimeout None.
Definition ErrCanceled : RequestError :=
  mkRequestError "request canceled" 0 None.
Definition ErrStreamClosed : StreamError :=
  mkStreamError "stream closed" None.

(** ** encoding/json

    [json.Unmarshal(data, &v)] works by reflection on the type of [v]: it
    writes into [v] and returns an error or nil.  A type that can be decoded
    is an instance of [JSON]: its zero value (what [var v T] declares) and
    its decoder, from the bytes and the target's current value to the
    target's new value and the error. *)
Class JSON (A : Type) : Type := {
  zero : A;
  Unmarshal : string -> A -> A * option lib_error
}.

(** ** net/http responses

    A response body is an [io.ReadCloser]: [pending] are the bytes it still
    has to deliver; once they are delivered a read reports [io.EOF]
    ([read_err = None]) or fails with [read_err]; [close_err] is what
    [Close] returns. *)
Record Body : Type := mkBody {
  pending : string;
  read_err : option lib_error;
  close_err : option lib_error;
  body_closed : bool
}.

Record Response : Type := mkResponse {
  StatusCode : Z;
  RespBody : Body
}.

Definition consume (b : Body) (rest : string) : Body :=
  mkBody rest (read_err b) (close_err b) (body_closed b).

Definition with_body (r : Response) (b : Body) : Response :=
  mkResponse (StatusCode r) b.

(** [io.ReadAll]: everything that is left; [io.EOF] is not an error. *)
Definition ReadAll (b : Body) : string * option lib_error * Body :=
  (pending b, read_err b, consume b EmptyString).

(** [resp.Body.Close()] *)
Definition CloseBody (b : Body) : option lib_error * Body :=
  (close_err b, mkBody (pending b) (read_err b) (close_err b) true).

(** [bufio.Reader.ReadString('\n')] on a reader over the body: the bytes up
    to and including the first LF; without one, everything that is left
    together with the error that ended the data. *)
Fixpoint cutLine (s : string) : option (string * string) :=
  match s with
  | EmptyString => None
  | String c s' =>
      if Ascii.eqb c LF then Some (String c EmptyString, s')
      else match cutLine s' with
           | Some (l, r) => Some (String c l, r)
           | None => None
           end
  end.

Definition ReadString (b : Body) : string * option lib_error * Body :=
  match cutLine (pending b) with
  | Some (line, rest) => (line, None, consume b rest)
  | None =>
      (pending b,
       Some (match read_err b with Some e => e | None => io_EOF end),
       consume b EmptyString)
  end.

(** ** internal/rest/client.go *)

Module rest.

Section Transport.

Context {T : Type} `{JSON T} `{JSON APIError}.

(** [http.StatusText] *)
Variable StatusText : Z -> string.

(** [parseErrorResponse] *)
Definition parseErrorResponse (resp : Response) : error * Response :=
  let '(body, err, b') := ReadAll (RespBody resp) in
  let resp' := with_body resp b' in
  match err with
  | Some e =>
      (API (mkAPIError (StatusCode resp)
              ("failed to read error response body: " ++ lib_error_string e)
              None EmptyString), resp')
  | None =>
      if (String.length body =? 0)%nat then
        (API (mkAPIError (StatusCode resp) (StatusText (StatusCode resp))
                None EmptyString), resp')
      else
        match Unmarshal body (zero (A := APIError)) with
        | (_, Some _) =>
            (API (mkAPIError (StatusCode resp) body None EmptyString), resp')
        | (apiError, None) =>
            (API (mkAPIError (StatusCode resp) (api_Message apiError)
                    (api_Details apiError) (api_RequestID apiError)), resp')
        end
  end.

(** [handleResponse]: [result] is [None] for a nil target, else the value
    the target holds; the second component of the outcome is what the target
    holds afterwards. *)
Definition handleResponse (resp : Response) (result : option T)
  : option error * option T * Response :=
  if (StatusCode resp <? 200)%Z || (StatusCode resp >=? 300)%Z then
    let '(e, resp') := parseErrorResponse resp in (Some e, result, resp')
  else
    match result with
    | None => (None, None, resp)
    | Some v =>
        if (StatusCode resp =? http.StatusNoContent)%Z then (None, Some v, resp)
        else
          let '(body, err, b') := ReadAll (RespBody resp) in
          let resp' := with_body resp b' in
          match err with
          | Some e =>
              (Some (Request (mkRequestError "failed to read response body"
                                (StatusCode resp) (Some e))), Some v, resp')
          | None =>
              if (String.length body =? 0)%nat then (None, Some v, resp')
              else
                match Unmarshal body v with
                | (v', Some e) =>
                    (Some (Request (mkRequestError
                                      "failed to unmarshal response body"
                                      (StatusCode resp) (Some e))), Some v', resp')
                | (v', None) => (None, Some v', resp')
                end
          end
    end.

End Transport.

End rest.

(** ** internal/stream/stream.go *)

Module stream.

(** [sseEvent] *)
Record sseEvent : Type := mkEvent {
  id : string;
  event : string;
  data : string
}.

(** One turn of the loop of [parseEvent], on one element of
    [strings.Split(eventStr, "\n")]. *)
Definition parseLine (ev : sseEvent) (line0 : string) : sseEvent :=
  let line := TrimRight line0 CR in
  if isEmpty line then ev
  else if HasPrefix line "id:" then
    mkEvent (TrimSpace (from 3 line)) (event ev) (data ev)
  else if HasPrefix line "event:" then
    mkEvent (id ev) (TrimSpace (from 6 line)) (data ev)
  else if HasPrefix line "data:" then
    let d := if negb (isEmpty (data ev)) then data ev ++ nl else data ev in
    mkEvent (id ev) (event ev) (d ++ TrimSpace (from 5 line))
  else if HasPrefix line ":" then ev
  else if ContainsByte colon line then
    match SplitN2 colon line with
    | [p0; p1] =>
        let field := TrimSpace p0 in
        let value := TrimSpace p1 in
        if (field =? "id")%string then mkEvent value (event ev) (data ev)
        else if (field =? "event")%string then mkEvent (id ev) value (data ev)
        else if (field =? "data")%string then
          let d := if negb (isEmpty (data ev)) then data ev ++ nl else data ev in
          mkEvent (id ev) (event ev) (d ++ value)
        else ev
    | _ => ev
    end
  else ev.

(** [parseEvent]; its error result is nil on every path. *)
Definition parseEvent (eventStr : string) : sseEvent :=
  let ev := fold_left parseLine (Split LF eventStr)
              (mkEvent EmptyString EmptyString EmptyString) in
  if isEmpty (event ev) then mkEvent (id ev) "message" (data ev) else ev.

(** A value together with the equation that says where it comes from, for
    the termination argument of the loop below. *)
Definition inspect {A : Type} (a : A) : {b : A | a = b} := exist _ a eq_refl.

(** [readEvent]: [buffer] is the accumulation buffer, empty when the method
    is entered.  Each turn of the loop takes one [ReadString] from the body. *)
Equations? readEvent (b : Body) (buffer : string) : (sseEvent + error) * Body
  by wf (String.length (pending b)) lt :=
  readEvent b buffer with inspect (ReadString b) => {
    | exist _ (line, Some err, b') _ =>
        match err with
        | io_EOF =>
            if negb (isEmpty buffer) then (inl (parseEvent buffer), b')
            else (inr (Lib io_EOF), b')
        | _ =>
            (inr (Stream_ (mkStreamError "error reading from stream" (Some err))), b')
        end;
    | exist _ (line, None, b') _ =>
        if (line =? nl)%string || (line =? crnl)%string then
          if negb (isEmpty buffer) then (inl (parseEvent buffer), b')
          else readEvent b' buffer
        else readEvent b' (buffer ++ line) }.
Proof.
  all: assert (Hcut : forall s l r, cutLine s = Some (l, r) ->
                        String.length r < String.length s)
    by (intros s; induction s as [|c s IH]; simpl; intros l r Hs;
        [ discriminate
        | destruct (Ascii.eqb c LF);
          [ inversion Hs; subst; lia
          | destruct (cutLine s) as [[l0 r0]|] eqn:E; [|discriminate];
            inversion Hs; subst; specialize (IH _ _ eq_refl); lia ] ]).
  all: unfold ReadString in *;
    destruct (cutLine (pending b)) as [[l r]|] eqn:E; [|discriminate];
    match goal with H : (_, _, _) = (_, _, _) |- _ => inversion H; subst end;
    simpl; eapply Hcut; eassumption.
Qed.

(** The state of a [Stream]: [ctx] is [s.ctx.Err()], [None] as long as the
    context is live; the buffered reader reads from the body of [response].
    The mutex serialises the methods; they are embedded as sequential steps. *)
Record Stream : Type := mkStream {
  ctx : option lib_error;
  response : Response;
  closed : bool
}.

(** [context.WithCancel(parent)] at creation: the child is done when the
    parent is; [cancel] marks a live context cancelled and leaves the
    error of one that is already done. *)
Definition cancel (c : option lib_error) : option lib_error :=
  match c with
  | Some e => Some e
  | None => Some context_Canceled
  end.

(** [New] *)
Definition New (parent : option lib_error) (resp : Response) : Stream :=
  mkStream parent resp false.

Section Recv.

Context {T : Type} `{JSON T}.

(** [Recv] *)
Definition Recv (s : Stream) : (T + error) * Stream :=
  if closed s then (inr (Stream_ ErrStreamClosed), s)
  else
    match ctx s with
    | Some e => (inr (Lib e), s)
    | None =>
        let '(r, b') := readEvent (RespBody (response s)) EmptyString in
        let s' := mkStream (ctx s) (with_body (response s) b') (closed s) in
        match r with
        | inr err => (inr err, s')
        | inl ev =>
            match Unmarshal (data ev) zero with
            | (_, Some e) =>
                (inr (Stream_ (mkStreamError "failed to unmarshal event data"
                                 (Some e))), s')
            | (item, None) => (inl item, s')
            end
        end
    end.

End Recv.

(** [Close] *)
Definition Close (s : Stream) : option error * Stream :=
  if closed s then (None, s)
  else
    let '(e, b') := CloseBody (RespBody (response s)) in
    (option_map Lib e,
     mkStream (cancel (ctx s)) (with_body (response s) b') true).

(** [IsClosed] *)
Definition IsClosed (s : Stream) : bool := closed s.


End stream.

(** ** A decodable type: [uint64]

    [json.Unmarshal] into a [uint64] target accepts, between optional JSON
    white space, the literal [null] (the target is left as it is) and a
    JSON number made of decimal digits only, without a leading zero, that
    fits 64 bits.  Every other input is an error and leaves the target as it
    is; of the error only its presence is kept. *)
Module uint64.

Definition jsonSpace (c : ascii) : bool :=
  let n := nat_of_ascii c in
  ((n =? 32) || (n =? 9) || (n =? 10) || (n =? 13))%nat.

Fixpoint skipSpace (s : string) : string :=
  match s with
  | String c s' => if jsonSpace c then skipSpace s' else s
  | EmptyString => EmptyString
  end.

Definition trimJSON (s : string) : string :=
  reverse (skipSpace (reverse (skipSpace s))).

Definition digit (c : ascii) : option N :=
  let n := N_of_ascii c in
  if ((48 <=? n) && (n <=? 57))%N then Some (n - 48)%N else None.

Fixpoint digits (acc : N) (s : string) : option N :=
  match s with
  | EmptyString => Some acc
  | String c s' =>
      match digit c with
      | Some d => digits (acc * 10 + d)%N s'
      | None => None
      end
  end.

Definition number (s : string) : option N :=
  match s with
  | EmptyString => None
  | String c rest =>
      if Ascii.eqb c "0"%char && negb (isEmpty rest) then None
      else match digits 0%N s with
           | Some n => if (n <? 2 ^ 64)%N then Some n else None
           | None => None
           end
  end.

Definition decode (input : string) (v : N) : N * option lib_error :=
  let s := trimJSON input in
  if (s =? "null")%string then (v, None)
  else match number s with
       | Some n => (n, None)
       | None => (v, Some (opaque_error "json: cannot unmarshal into Go value of type uint64"))
       end.

#[export] Instance json : JSON N := {| zero := 0%N; Unmarshal := decode |}.

End uint64.

(** ** Event streams as the specification describes them

    An event is a non-empty run of lines, each ended by LF and none of them
    blank, followed by a blank line (LF or CR LF). *)
Module sse.

Import stream.

Definition event_line (l : string) : bool :=
  negb (ContainsByte LF l) && negb (isEmpty l)
  && negb (l =? String CR EmptyString)%string.

Definition terminator (t : string) : bool :=
  (t =? nl)%string || (t =? crnl)%string.

Definition event_text (ls : list string) : string :=
  fold_right (fun l acc => l ++ nl ++ acc) EmptyString ls.

Definition event_lines (ls : list string) : bool :=
  match ls with
  | [] => false
  | _ :: _ => forallb event_line ls
  end.

Record block : Type := mkBlock {
  lines : list string;
  blank : string
}.

Definition well_formed (e : block) : bool :=
  event_lines (lines e) && terminator (blank e).

Definition block_bytes (e : block) : string :=
  event_text (lines e) ++ blank e.

Definition stream_bytes (evs : list block) : string :=
  fold_right (fun e acc => block_bytes e ++ acc) EmptyString evs.

(** The data payload the code hands to the decoder for an event. *)
Definition payload (ls : list string) : string :=
  data (parseEvent (event_text ls)).

(** The value a line contributes to the data payload, if it does: what
    [parseLine] appends for it. *)
Definition dataValue (line0 : string) : option string :=
  let line := TrimRight line0 CR in
  if isEmpty line then None
  else if HasPrefix line "id:" then None
  else if HasPrefix line "event:" then None
  else if HasPrefix line "data:" then Some (TrimSpace (from 5 line))
  else if HasPrefix line ":" then None
  else if ContainsByte colon line then
    match SplitN2 colon line with
    | [p0; p1] =>
        if (TrimSpace p0 =? "data")%string then Some (TrimSpace p1) else None
    | _ => None
    end
  else None.

Fixpoint dataValues (ls : list string) : list string :=
  match ls with
  | [] => []
  | l :: rest =>
      match dataValue l with
      | Some v => v :: dataValues rest
      | None => dataValues rest
      end
  end.

Fixpoint dropEmpty (vs : list string) : list string :=
  match vs with
  | v :: rest => if isEmpty v then dropEmpty rest else vs
  | [] => []
  end.

(** What [parseLine] makes of the accumulated data [d] when a line
    contributes [v], and that over the values of all lines. *)
Definition appendValue (d v : string) : string :=
  (if negb (isEmpty d) then d ++ nl else d) ++ v.

Definition tailJoin (vs : list string) : string :=
  fold_right (fun v acc => nl ++ v ++ acc) EmptyString vs.

(** An open stream with a live context over a body that ends with
    [io.EOF]. *)
Definition live (body : string) (ce : option lib_error) (bc : bool) (code : Z)
  : Stream :=
  mkStream None (mkResponse code (mkBody body None ce bc)) false.

Section Calls.

Context {T : Type} `{JSON T}.

(** [n] calls of [Recv], one after the other. *)
Fixpoint recvN (n : nat) (s : Stream) : list (T + error) * Stream :=
  match n with
  | O => ([], s)
  | S n' =>
      let '(r, s1) := Recv s in
      let '(rs, s2) := recvN n' s1 in
      (r :: rs, s2)
  end.

(** What decoding the payloads of the events gives. *)
Definition decoded (evs : list block) : list (T * option lib_error) :=
  map (fun e => Unmarshal (payload (lines e)) zero) evs.

(** Any sequence of method calls on a stream. *)
Inductive call : Type := CallRecv | CallClose.

Inductive outcome : Type :=
| RecvReturned (r : T + error)
| CloseReturned (e : option error).

Definition step (c : call) (s : Stream) : outcome * Stream :=
  match c with
  | CallRecv => let '(r, s') := Recv s in (RecvReturned r, s')
  | CallClose => let '(e, s') := Close s in (CloseReturned e, s')
  end.

Fixpoint run (cs : list call) (s : Stream) : list outcome * Stream :=
  match cs with
  | [] => ([], s)
  | c :: rest =>
      let '(o, s1) := step c s in
      let '(os, s2) := run rest s1 in
      (o :: os, s2)
  end.

Definition after_close (c : call) : outcome :=
  match c with
  | CallRecv => RecvReturned (inr (Stream_ ErrStreamClosed))
  | CallClose => CloseReturned None
  end.

End Calls.

End sse.

Import stream sse.

(** ** Inputs to run the code on *)
Module samples.

Definition quote : string := String "034"%char EmptyString.

(** An error body whose [status_code] differs from the status of the
    response that carries it. *)
Definition errorBody : string :=
  "{" ++ quote ++ "message" ++ quote ++ ":" ++ quote ++ "bad field" ++ quote
  ++ "," ++ quote ++ "status_code" ++ quote ++ ":418}".

(** What [json.Unmarshal] does with [errorBody] and an [APIError] target:
    the two fields of the body are written, the other two are left.  Inputs
    other than [errorBody] are outside this decoder and reported as errors. *)
Definition decodeErrorBody (input : string) (a : APIError)
  : APIError * option lib_error :=
  if (input =? errorBody)%string then
    (mkAPIError 418 "bad field" (api_Details a) (api_RequestID a), None)
  else (a, Some (opaque_error "json: input outside the sample decoder")).

Definition apiErrorJSON : JSON APIError :=
  {| zero := mkAPIError 0 EmptyString None EmptyString;
     Unmarshal := decodeErrorBody |}.

(** The entries of [http.StatusText] for the statuses used here. *)
Definition StatusText (code : Z) : string :=
  if (code =? 400)%Z then "Bad Request"
  else if (code =? 404)%Z then "Not Found"
  else if (code =? 500)%Z then "Internal Server Error"
  else EmptyString.

Definition body (s : string) : Body := mkBody s None None false.

Definition twoEvents : list block :=
  [ mkBlock ["data: 1"] nl; mkBlock ["id: 7"; "data: 2"] crnl ].


End samples.

(** ** Further notions for the stream engine *)

(** A run of blank lines. *)
Definition blank_lines (ts : list string) : string :=
  fold_right append EmptyString ts.

(** The stream [s] with the bytes [q] behind what its body still holds. *)
Definition with_tail (s : Stream) (q : string) : Stream :=
  mkStream (ctx s)
    (with_body (response s)
       (consume (RespBody (response s)) (pending (RespBody (response s)) ++ q)))
    (closed s).

(** What a line sets the id and the event type to, if it does: the
    assignments of [parseLine]. *)
Definition idValue (line0 : string) : option string :=
  let line := TrimRight line0 CR in
  if isEmpty line then None
  else if HasPrefix line "id:" then Some (TrimSpace (from 3 line))
  else if HasPrefix line "event:" then None
  else if HasPrefix line "data:" then None
  else if HasPrefix line ":" then None
  else if ContainsByte colon line then
    match SplitN2 colon line with
    | [p0; p1] =>
        if (TrimSpace p0 =? "id")%string then Some (TrimSpace p1) else None
    | _ => None
    end
  else None.

Definition eventValue (line0 : string) : option string :=
  let line := TrimRight line0 CR in
  if isEmpty line then None
  else if HasPrefix line "id:" then None
  else if HasPrefix line "event:" then Some (TrimSpace (from 6 line))
  else if HasPrefix line "data:" then None
  else if HasPrefix line ":" then None
  else if ContainsByte colon line then
    match SplitN2 colon line with
    | [p0; p1] =>
        if (TrimSpace p0 =? "id")%string then None
        else if (TrimSpace p0 =? "event")%string then Some (TrimSpace p1)
        else None
    | _ => None
    end
  else None.

Fixpoint collect (f : string -> option string) (ls : list string)
  : list string :=
  match ls with
  | [] => []
  | l :: rest =>
      match f l with
      | Some v => v :: collect f rest
      | None => collect f rest
      end
  end.

(** A comment line, or a line without a colon. *)
Definition ignoredLine (line0 : string) : bool :=
  let line := TrimRight line0 CR in
  HasPrefix line ":" || negb (ContainsByte colon line).

Definition noLF (l : string) : bool := negb (ContainsByte LF l).

Definition addCR (l : string) : string := l ++ String CR EmptyString.

(** The fields of the body that reading leaves alone. *)
Definition same_source (b b' : Body) : Prop :=
  read_err b' = read_err b /\ close_err b' = close_err b
  /\ body_closed b' = body_closed b.

(** Two bodies, the first holding the bytes of the second and then bytes
    without LF; the same for two streams. *)
Definition tail_rel (b1 b2 : Body) : Prop :=
  same_source b2 b1
  /\ exists q : string, noLF q = true /\ pending b1 = pending b2 ++ q.

Definition stream_tail (s1 s2 : Stream) : Prop :=
  ctx s1 = ctx s2 /\ closed s1 = closed s2
  /\ StatusCode (response s1) = StatusCode (response s2)
  /\ tail_rel (RespBody (response s1)) (RespBody (response s2)).

(** ** net/textproto and net/http headers

    [http.Header.Set] and [Get] use the canonical form of the key:
    [textproto.CanonicalMIMEHeaderKey] leaves a key with a byte that is not a
    token byte as it is, and otherwise makes the first letter and every
    letter behind a hyphen upper case and the other letters lower case.  A
    header is embedded as an association list; of the order of a Go map
    nothing is used. *)
Module textproto.

Definition isLower (n : nat) : bool := ((97 <=? n) && (n <=? 122))%nat.
Definition isUpper (n : nat) : bool := ((65 <=? n) && (n <=? 90))%nat.
Definition isDigit (n : nat) : bool := ((48 <=? n) && (n <=? 57))%nat.

Definition validHeaderFieldByte (c : ascii) : bool :=
  let n := nat_of_ascii c in
  isLower n || isUpper n || isDigit n
  || existsb (Nat.eqb n) [33; 35; 36; 37; 38; 39; 42; 43; 45; 46; 94; 95; 96; 124; 126].

Fixpoint allValid (s : string) : bool :=
  match s with
  | EmptyString => true
  | String c s' => validHeaderFieldByte c && allValid s'
  end.

Fixpoint canonical (upper : bool) (s : string) : string :=
  match s with
  | EmptyString => EmptyString
  | String c s' =>
      let n := nat_of_ascii c in
      let c' :=
        if upper && isLower n then ascii_of_nat (n - 32)
        else if negb upper && isUpper n then ascii_of_nat (n + 32)
        else c in
      String c' (canonical (Ascii.eqb c' "-"%char) s')
  end.

Definition CanonicalMIMEHeaderKey (s : string) : string :=
  if allValid s then canonical true s else s.

End textproto.

Definition Header : Type := list (string * list string).

Fixpoint Header_del (k : string) (h : Header) : Header :=
  match h with
  | [] => []
  | (k', vs) :: rest =>
      if (k' =? k)%string then Header_del k rest else (k', vs) :: Header_del k rest
  end.


(** [h.Set(key, value)] *)
Definition Header_Set (h : Header) (key value : string) : Header :=
  let k := textproto.CanonicalMIMEHeaderKey key in
  (k, [value]) :: Header_del k h.


(** [*http.Request], as far as the client builds it. *)
Record HTTPRequest : Type := mkRequest {
  Method : string;
  URL : string;
  ReqBody : option string;
  ReqHeader : Header
}.

(** [json.Marshal(v)] for the values of a type. *)
Class JSONMarshal (A : Type) : Type := {
  Marshal : A -> string + lib_error
}.

(** ** internal/auth/auth.go

    The authenticators of the package; [tabby/types.go] has the same three
    key and token authenticators. *)
Module auth.

Inductive Authenticator : Type :=
| NoAuth
| APIKeyAuthenticator (Key : string)
| AdminKeyAuthenticator (Key : string)
| BearerTokenAuthenticator (Token : string).

(** [Apply] *)
Definition Apply (a : Authenticator) (req : HTTPRequest) : HTTPRequest :=
  match a with
  | NoAuth => req
  | APIKeyAuthenticator key =>
      mkRequest (Method req) (URL req) (ReqBody req)
        (Header_Set (ReqHeader req) "X-API-Key" key)
  | AdminKeyAuthenticator key =>
      mkRequest (Method req) (URL req) (ReqBody req)
        (Header_Set (ReqHeader req) "X-Admin-Key" key)
  | BearerTokenAuthenticator token =>
      mkRequest (Method req) (URL req) (ReqBody req)
        (Header_Set (ReqHeader req) "Authorization" ("Bearer " ++ token))
  end.

Definition NewAPIKeyAuthenticator (key : string) : Authenticator :=
  APIKeyAuthenticator key.
Definition NewAdminKeyAuthenticator (key : string) : Authenticator :=
  AdminKeyAuthenticator key.
Definition NewBearerTokenAuthenticator (token : string) : Authenticator :=
  BearerTokenAuthenticator token.

End auth.

(** ** internal/rest/client.go: the client and its requests

    [HC] stands for [*http.Client]; [send hc req] is what [hc.Do(req)]
    returns, the context of the request included.  [newRequestError] is the
    error of [http.NewRequestWithContext] for a method and a URL, if there is
    one; [Encode] is [url.Values.Encode]. *)
Module client.

Definition Values : Type := list (string * list string).

Record Client (HC : Type) : Type := mkClient {
  baseURL : string;
  httpClient : HC;
  auth : option auth.Authenticator;
  contentType : string
}.

Arguments mkClient {HC}.
Arguments baseURL {HC}.
Arguments httpClient {HC}.
Arguments auth {HC}.
Arguments contentType {HC}.

Definition ClientOption (HC : Type) : Type := Client HC -> Client HC.

(** [WithHTTPClient], [WithAuth], [WithContentType] *)
Definition WithHTTPClient {HC : Type} (hc : HC) : ClientOption HC :=
  fun c => mkClient (baseURL c) hc (auth c) (contentType c).

Definition WithAuth {HC : Type} (a : option auth.Authenticator) : ClientOption HC :=
  fun c => mkClient (baseURL c) (httpClient c) a (contentType c).

Definition WithContentType {HC : Type} (ct : string) : ClientOption HC :=
  fun c => mkClient (baseURL c) (httpClient c) (auth c) ct.

(** [New]; [DefaultClient] is [http.DefaultClient]. *)
Definition New {HC : Type} (DefaultClient : HC) (base : string)
  (options : list (ClientOption HC)) : Client HC :=
  fold_left (fun c option => option c) options
    (mkClient (TrimRight base "/"%char) DefaultClient None "application/json").

Section Requests.

Context {HC : Type} {T : Type} `{JSON T} `{JSON APIError}
        {B : Type} `{JSONMarshal B}.

Variable send : HC -> HTTPRequest -> Response + lib_error.
Variable newRequestError : string -> string -> option lib_error.
Variable Encode : Values -> string.
Variable StatusText : Z -> string.

(** [BuildURL] *)
Definition BuildURL (c : Client HC) (endpoint : string) (params : Values)
  : string :=
  let endpoint := dropLeading "/"%char endpoint in
  let fullURL := baseURL c ++ "/" ++ endpoint in
  match params with
  | [] => fullURL
  | _ :: _ => fullURL ++ "?" ++ Encode params
  end.

(** [createRequest]; the error of [json.Marshal] is wrapped by
    [fmt.Errorf], of which the message is kept. *)
Definition createRequest (c : Client HC) (method url : string)
  (body : option B) : HTTPRequest + lib_error :=
  let marshalled :=
    match body with
    | None => inl None
    | Some v =>
        match Marshal v with
        | inl data => inl (Some data)
        | inr err =>
            inr (opaque_error ("failed to marshal request body: "
                               ++ lib_error_string err))
        end
    end in
  match marshalled with
  | inr err => inr err
  | inl bodyReader =>
      match newRequestError method url with
      | Some err => inr err
      | None =>
          let req := mkRequest method url bodyReader [] in
          let req :=
            match body with
            | Some _ =>
                mkRequest (Method req) (URL req) (ReqBody req)
                  (Header_Set (ReqHeader req) "Content-Type" (contentType c))
            | None => req
            end in
          let req :=
            mkRequest (Method req) (URL req) (ReqBody req)
              (Header_Set (ReqHeader req) "Accept" "application/json") in
          match auth c with
          | Some a => inl (auth.Apply a req)
          | None => inl req
          end
      end
  end.

(** [Do]: the error, what the target holds afterwards, and the response
    as it is left, when there was one. *)
Definition Do (c : Client HC) (method url : string) (body : option B)
  (result : option T) : option error * option T * option Response :=
  match createRequest c method url body with
  | inr err =>
      (Some (Request (mkRequestError "failed to create request" 0 (Some err))),
       result, None)
  | inl req =>
      match send (httpClient c) req with
      | inr err =>
          (Some (Request (mkRequestError "failed to execute request" 0 (Some err))),
           result, None)
      | inl resp =>
          let '(e, result', resp') := rest.handleResponse StatusText resp result in
          let '(_, b') := CloseBody (RespBody resp') in
          (e, result', Some (with_body resp' b'))
      end
  end.

(** [DoRaw]: the response or the error, and the response as it is left. *)
Definition DoRaw (c : Client HC) (method url : string) (body : option B)
  : (Response + error) * option Response :=
  match createRequest c method url body with
  | inr err =>
      (inr (Request (mkRequestError "failed to create request" 0 (Some err))),
       None)
  | inl req =>
      match send (httpClient c) req with
      | inr err =>
          (inr (Request (mkRequestError "failed to execute request" 0 (Some err))),
           None)
      | inl resp =>
          if (StatusCode resp <? 200)%Z || (StatusCode resp >=? 300)%Z then
            let '(e, resp') := rest.parseErrorResponse StatusText resp in
            let '(_, b') := CloseBody (RespBody resp') in
            (inr e, Some (with_body resp' b'))
          else (inl resp, Some resp)
      end
  end.

(** [Get], [Post], [Put], [Delete] *)
Definition Get (c : Client HC) (endpoint : string) (params : Values)
  (result : option T) : option error * option T * option Response :=
  Do c "GET" (BuildURL c endpoint params) None result.

Definition Post (c : Client HC) (endpoint : string) (body : option B)
  (result : option T) : option error * option T * option Response :=
  Do c "POST" (BuildURL c endpoint []) body result.

Definition Put (c : Client HC) (endpoint : string) (body : option B)
  (result : option T) : option error * option T * option Response :=
  Do c "PUT" (BuildURL c endpoint []) body result.

Definition Delete (c : Client HC) (endpoint : string) (params : Values)
  : option error * option T * option Response :=
  Do c "DELETE" (BuildURL c endpoint params) None None.

End Requests.

End client.

(** A run of [n] slashes. *)
Fixpoint slashes (n : nat) : string :=
  match n with
  | O => EmptyString
  | S n' => String "/"%char (slashes n')
  end.

(** The status is one of the 2xx. *)
Definition is2xx (code : Z) : Prop := (200 <= code < 300)%Z.

(** ** tabby/options.go and tabby/client.go: configuration

    [int] and [time.Duration] are 64-bit two's complement integers ([int]
    as on a 64-bit platform); [wrap64] is the wrap-around of their
    arithmetic. *)
Module tabby.

Definition Duration : Type := Z.
Definition Millisecond : Duration := 1000000%Z.
Definition Second : Duration := 1000000000%Z.

Definition wrap64 (z : Z) : Z := ((z + 2 ^ 63) mod 2 ^ 64 - 2 ^ 63)%Z.

(** [uint(n)] *)
Definition uint_of (n : Z) : Z := (n mod 2 ^ 64)%Z.

(** [1 << count] at type [time.Duration], for an unsigned [count]. *)
Definition shl1 (count : Z) : Z :=
  if (count <? 64)%Z then wrap64 (2 ^ count) else 0%Z.

(** [SimpleRetryPolicy]; a [RetryableFunc] that dereferences a nil response
    panics, which is the result [None]. *)
Record SimpleRetryPolicy : Type := mkPolicy {
  MaxRetryCount : Z;
  RetryDelayFunc : Z -> Duration;
  RetryableFunc : option Response -> option error -> option bool
}.

Definition ShouldRetry (p : SimpleRetryPolicy)
  (resp : option Response) (err : option error) : option bool :=
  RetryableFunc p resp err.



(** [DefaultRetryPolicy] *)
Definition DefaultRetryPolicy : SimpleRetryPolicy :=
  mkPolicy 3
    (fun attempts =>
       wrap64 (wrap64 (shl1 (uint_of (wrap64 (attempts - 1))) * Second)
               + wrap64 (wrap64 (100 * attempts) * Millisecond)))%Z
    (fun resp err =>
       match err with
       | Some _ => Some true
       | None =>
           match resp with
           | Some r => Some (StatusCode r >=? 500)%Z
           | None => None
           end
       end).

(** [*http.Client] values live in a store and are used through pointers
    ([None] is nil): [WithTimeout] writes through the pointer the client
    holds. *)
Record http_Client : Type := mkHTTPClient { Timeout : Duration }.

Definition pointer : Type := option nat.

Definition store : Type := list http_Client.

Definition deref (h : store) (p : pointer) : option http_Client :=
  match p with
  | Some i => nth_error h i
  | None => None
  end.

Definition setTimeout (h : store) (p : pointer) (t : Duration) : option store :=
  match p with
  | Some i =>
      match nth_error h i with
      | Some _ => Some (firstn i h ++ mkHTTPClient t :: skipn (S i) h)%list
      | None => None
      end
  | None => None
  end.

(** [clientImpl] *)
Record clientImpl : Type := mkClientImpl {
  baseURL : string;
  httpClient : pointer;
  auth : option auth.Authenticator;
  retryPolicy : option SimpleRetryPolicy;
  restClient : option (client.Client pointer)
}.

Record state : Type := mkState {
  clients : store;
  impl : clientImpl
}.

(** The functional options, as data. *)
Inductive Option : Type :=
| WithBaseURL (url : string)
| WithHTTPClient (hc : pointer)
| WithAPIKey (key : string)
| WithAdminKey (key : string)
| WithBearerToken (token : string)
| WithTimeout (timeout : Duration)
| WithRetryPolicy (policy : option SimpleRetryPolicy).

(** What an option does to the client; the methods of the same names on
    [clientImpl] have the same bodies.  [None] is the panic of a nil
    dereference. *)
Definition applyOption (o : Option) (s : state) : option state :=
  let c := impl s in
  match o with
  | WithBaseURL url =>
      Some (mkState (clients s)
              (mkClientImpl url (httpClient c) (auth c) (retryPolicy c) (restClient c)))
  | WithHTTPClient hc =>
      Some (mkState (clients s)
              (mkClientImpl (baseURL c) hc (auth c) (retryPolicy c) (restClient c)))
  | WithAPIKey key =>
      Some (mkState (clients s)
              (mkClientImpl (baseURL c) (httpClient c)
                 (Some (auth.APIKeyAuthenticator key)) (retryPolicy c) (restClient c)))
  | WithAdminKey key =>
      Some (mkState (clients s)
              (mkClientImpl (baseURL c) (httpClient c)
                 (Some (auth.AdminKeyAuthenticator key)) (retryPolicy c) (restClient c)))
  | WithBearerToken token =>
      Some (mkState (clients s)
              (mkClientImpl (baseURL c) (httpClient c)
                 (Some (auth.BearerTokenAuthenticator token)) (retryPolicy c)
                 (restClient c)))
  | WithTimeout timeout =>
      match setTimeout (clients s) (httpClient c) timeout with
      | Some h => Some (mkState h c)
      | None => None
      end
  | WithRetryPolicy policy =>
      Some (mkState (clients s)
              (mkClientImpl (baseURL c) (httpClient c) (auth c) policy (restClient c)))
  end.

Fixpoint applyAll (os : list Option) (s : state) : option state :=
  match os with
  | [] => Some s
  | o :: rest =>
      match applyOption o s with
      | Some s' => applyAll rest s'
      | None => None
      end
  end.

(** [NewClient]: the new [http.Client] is put behind the clients that exist
    already. *)
Definition NewClient (h : store) (options : list Option) : option state :=
  applyAll options
    (mkState (h ++ [mkHTTPClient (30 * Second)%Z])%list
       (mkClientImpl "http://localhost:8080" (Some (List.length h)) None None None)).

(** [getRestClient]; [DefaultClient] is [http.DefaultClient]. *)
Definition getRestClient (DefaultClient : pointer) (s : state)
  : client.Client pointer * state :=
  let c := impl s in
  match restClient c with
  | Some rc => (rc, s)
  | None =>
      let authProvider :=
        match auth c with
        | Some a => a
        | None => auth.NoAuth
        end in
      let rc := client.New DefaultClient (baseURL c)
                  [client.WithHTTPClient (httpClient c);
                   client.WithAuth (Some authProvider)] in
      (rc, mkState (clients s)
             (mkClientImpl (baseURL c) (httpClient c) (auth c) (retryPolicy c)
                (Some rc)))
  end.

(** [buildURL] *)
Definition buildURL (c : clientImpl) (endpoint : string) : string :=
  baseURL c ++ "/" ++ dropLeading "/"%char endpoint.

(** [completionsService], [chatService] and [modelsService] hold the REST
    client and the base URL. *)
Record chatService : Type := mkChatService {
  svc_client : client.Client pointer;
  svc_baseURL : string
}.

(** [Chat] *)
Definition Chat (DefaultClient : pointer) (s : state) : chatService * state :=
  let '(rc, s') := getRestClient DefaultClient s in
  (mkChatService rc (baseURL (impl s)), s').

(** [fmt.Errorf(msg + ": %w", err)] *)
Inductive call_error : Type :=
| Errorf (msg : string) (cause : error).

Section Services.

Context {Req : Type} `{JSONMarshal Req} {Resp : Type} `{JSON Resp}
        `{JSON APIError}.

Variable send : pointer -> HTTPRequest -> Response + lib_error.
Variable newRequestError : string -> string -> option lib_error.
Variable Encode : client.Values -> string.
Variable StatusText : Z -> string.

(** [reqCopy.Stream = b] *)
Variable setStream : Req -> bool -> Req.

(** [chatService.Create] *)
Definition chat_Create (svc : chatService) (req : Req) : Resp + call_error :=
  let reqCopy := setStream req false in
  let response := zero in
  match client.Post send newRequestError Encode StatusText (svc_client svc)
          "v1/chat/completions" (Some reqCopy) (Some response) with
  | (Some err, _, _) => inr (Errorf "failed to create chat completion" err)
  | (None, Some v, _) => inl v
  | (None, None, _) => inl response
  end.

(** The URL [chatService.CreateStream] sends to. *)
Definition chat_streamURL (svc : chatService) : string :=
  svc_baseURL svc ++ "/" ++ dropLeading "/"%char "v1/chat/completions".

(** [chatService.CreateStream]; [ctx] is the state of the context of the
    call when the stream is made. *)
Definition chat_CreateStream (svc : chatService) (ctx : option lib_error)
  (req : Req) : Stream + call_error :=
  let reqCopy := setStream req true in
  match fst (client.DoRaw send newRequestError StatusText (svc_client svc)
               "POST" (chat_streamURL svc) (Some reqCopy)) with
  | inr err => inr (Errorf "failed to create chat completion stream" err)
  | inl resp => inl (stream.New ctx resp)
  end.

End Services.

End tabby.

(** The authenticators and base URLs a list of options names, in order. *)
Definition optionAuth (o : tabby.Option) : option auth.Authenticator :=
  match o with
  | tabby.WithAPIKey key => Some (auth.APIKeyAuthenticator key)
  | tabby.WithAdminKey key => Some (auth.AdminKeyAuthenticator key)
  | tabby.WithBearerToken token => Some (auth.BearerTokenAuthenticator token)
  | _ => None
  end.

Definition optionBaseURL (o : tabby.Option) : option string :=
  match o with
  | tabby.WithBaseURL url => Some url
  | _ => None
  end.

Fixpoint choose {A X : Type} (f : X -> option A) (xs : list X) : list A :=
  match xs with
  | [] => []
  | x :: rest =>
      match f x with
      | Some a => a :: choose f rest
      | None => choose f rest
      end
  end.

(** ** More inputs to run the code on *)
Module samples2.

(** A request that is nothing but its stream flag: [json.Marshal] of a
    [bool] is [true] or [false]. *)
#[export] Instance boolMarshal : JSONMarshal bool :=
  {| Marshal := fun b : bool => inl (if b then "true" else "false") |}.

Definition setStream (req : bool) (b : bool) : bool := b.

(** A server that answers every request with [resp], and one that cannot
    be reached. *)
Definition answer (resp : Response)
  : tabby.pointer -> HTTPRequest -> Response + lib_error :=
  fun _ _ => inl resp.

Definition unreachable
  : tabby.pointer -> HTTPRequest -> Response + lib_error :=
  fun _ _ => inr (opaque_error "dial tcp: connection refused").

Definition anyRequest (method url : string) : option lib_error := None.

Definition noQuery (params : client.Values) : string := EmptyString.

Definition restClient : client.Client tabby.pointer :=
  client.mkClient "http://localhost:8080" (Some 0)
    (Some (auth.APIKeyAuthenticator "secret")) "application/json".

Definition service : tabby.chatService :=
  tabby.mkChatService restClient "http://localhost:8080".

Definition notFound : Response :=
  mkResponse 404 (samples.body samples.errorBody).

Definition events : Response :=
  mkResponse 200 (samples.body (stream_bytes samples.twoEvents)).

Definition ownClient : tabby.http_Client := tabby.mkHTTPClient 5%Z.

End samples2.

(** A client configured with two credentials and a base URL, and the same
    before its REST client is made. *)
Definition sampleOptions : list tabby.Option :=
  [tabby.WithAPIKey "k"; tabby.WithBaseURL "http://tabby:5000/";
   tabby.WithBearerToken "t"].

Definition sampleState : tabby.state :=
  tabby.mkState [tabby.mkHTTPClient (30 * tabby.Second)%Z]
    (tabby.mkClientImpl "http://tabby:5000/" (Some 0)
       (Some (auth.BearerTokenAuthenticator "t")) None None).

(** * Properties *)

(** ** Strings *)

Lemma append_nil_r (s : string) : s ++ EmptyString = s.
Proof. induction s as [|c s IH]; simpl; [reflexivity | now rewrite IH]. Qed.

Lemma append_assoc (a b c : string) : (a ++ b) ++ c = a ++ (b ++ c).
Proof. induction a as [|x a IH]; simpl; [reflexivity | now rewrite IH]. Qed.

Lemma isEmpty_true (s : string) : isEmpty s = true <-> s = EmptyString.
Proof. destruct s; simpl; split; congruence. Qed.

Lemma isEmpty_append (a b : string) :
  isEmpty (a ++ b) = isEmpty a && isEmpty b.
Proof. destruct a; reflexivity. Qed.

Lemma cutLine_line (l rest : string) :
  ContainsByte LF l = false ->
  cutLine (l ++ nl ++ rest) = Some (l ++ nl, rest).
Proof.
  induction l as [|c l IH]; intros Hl.
  - reflexivity.
  - cbn [ContainsByte] in Hl.
    change (String c l ++ nl ++ rest) with (String c (l ++ nl ++ rest)).
    cbn [cutLine].
    destruct (Ascii.eqb c LF); [discriminate|].
    now rewrite (IH Hl).
Qed.

Lemma event_line_not_blank (l : string) :
  event_line l = true ->
  ((l ++ nl =? nl)%string || (l ++ nl =? crnl)%string) = false.
Proof.
  unfold event_line. intros Hl.
  apply andb_true_iff in Hl as [Hl Hcr].
  apply andb_true_iff in Hl as [_ Hne].
  apply orb_false_iff; split; apply String.eqb_neq; intros E.
  - destruct l; [discriminate | inversion E as [[Hc Hl]]].
    destruct l; discriminate.
  - destruct l as [|c [|d l]]; try discriminate.
    + inversion E; subst. discriminate.
    + inversion E as [[Hc Hd Hl]]. destruct l; discriminate.
Qed.

(** ** The read loop *)

Lemma readEvent_unfold (b : Body) (buffer : string) :
  readEvent b buffer =
  match ReadString b with
  | (line, Some err, b') =>
      match err with
      | io_EOF =>
          if negb (isEmpty buffer) then (inl (parseEvent buffer), b')
          else (inr (Lib io_EOF), b')
      | _ =>
          (inr (Stream_ (mkStreamError "error reading from stream" (Some err))), b')
      end
  | (line, None, b') =>
      if (line =? nl)%string || (line =? crnl)%string then
        if negb (isEmpty buffer) then (inl (parseEvent buffer), b')
        else readEvent b' buffer
      else readEvent b' (buffer ++ line)
  end.
Proof.
  funelim (readEvent b buffer).
  all: match goal with E : ReadString _ = _ |- _ => rewrite E end.
  all: reflexivity.
Qed.

Section ReadLoop.

Variables (re ce : option lib_error) (bc : bool).

Lemma ReadString_line (l rest : string) :
  ContainsByte LF l = false ->
  ReadString (mkBody (l ++ nl ++ rest) re ce bc)
  = (l ++ nl, None, mkBody rest re ce bc).
Proof.
  intros Hl. unfold ReadString. cbn [pending].
  now rewrite (cutLine_line l rest Hl).
Qed.

(** A line of an event is appended to the accumulation buffer. *)
Lemma readEvent_event_line (l rest buffer : string) :
  event_line l = true ->
  readEvent (mkBody (l ++ nl ++ rest) re ce bc) buffer
  = readEvent (mkBody rest re ce bc) (buffer ++ l ++ nl).
Proof.
  intros Hl. rewrite readEvent_unfold, ReadString_line.
  - now rewrite (event_line_not_blank l Hl).
  - unfold event_line in Hl.
    apply andb_true_iff in Hl as [Hl _].
    apply andb_true_iff in Hl as [Hl _].
    now apply negb_true_iff in Hl.
Qed.

Lemma readEvent_event_text (ls : list string) :
  forall rest buffer,
    forallb event_line ls = true ->
    readEvent (mkBody (event_text ls ++ rest) re ce bc) buffer
    = readEvent (mkBody rest re ce bc) (buffer ++ event_text ls).
Proof.
  induction ls as [|l ls IH]; intros rest buffer Hls.
  - cbn. now rewrite append_nil_r.
  - cbn [forallb] in Hls. apply andb_true_iff in Hls as [Hl Hls].
    cbn [event_text fold_right].
    rewrite !append_assoc, (readEvent_event_line l _ buffer Hl).
    fold (event_text ls). rewrite (IH rest _ Hls).
    now rewrite !append_assoc.
Qed.

(** The blank line ends the event when something was accumulated. *)
Lemma readEvent_blank (t rest buffer : string) :
  terminator t = true ->
  isEmpty buffer = false ->
  readEvent (mkBody (t ++ rest) re ce bc) buffer
  = (inl (parseEvent buffer), mkBody rest re ce bc).
Proof.
  intros Ht Hb. unfold terminator in Ht.
  rewrite readEvent_unfold.
  apply orb_true_iff in Ht as [Ht|Ht]; apply String.eqb_eq in Ht; subst t;
    cbn; now rewrite Hb.
Qed.

End ReadLoop.

(** At the end of the data the accumulated event is parsed; with nothing
    accumulated the loop reports [io.EOF]. *)
Lemma readEvent_at_EOF (ce : option lib_error) (bc : bool) (buffer : string) :
  readEvent (mkBody EmptyString None ce bc) buffer
  = (if negb (isEmpty buffer) then inl (parseEvent buffer) else inr (Lib io_EOF),
     mkBody EmptyString None ce bc).
Proof.
  rewrite readEvent_unfold. cbn. now destruct (isEmpty buffer).
Qed.

Lemma event_lines_nonempty (ls : list string) :
  event_lines ls = true ->
  forallb event_line ls = true /\ isEmpty (event_text ls) = false.
Proof.
  destruct ls as [|l ls]; [discriminate|]. intros Hls. split; [exact Hls|].
  cbn [event_text fold_right]. rewrite !isEmpty_append.
  cbn. now rewrite andb_false_r.
Qed.

(** ** Receiving *)

Section RecvFacts.

Context {T : Type} `{JSON T}.

(** One complete event at the head of the body: [Recv] decodes it and
    leaves the reader just behind its blank line. *)
Lemma Recv_block (e : block) (rest : string) (item : T) ce bc code :
  well_formed e = true ->
  Unmarshal (payload (lines e)) zero = (item, None) ->
  Recv (live (block_bytes e ++ rest) ce bc code)
  = (inl item, live rest ce bc code).
Proof.
  intros Hwf Hdec. unfold well_formed in Hwf.
  apply andb_true_iff in Hwf as [Hls Ht].
  apply event_lines_nonempty in Hls as [Hls Hne].
  unfold Recv, live, block_bytes. cbn [closed ctx response RespBody].
  rewrite append_assoc, (readEvent_event_text _ _ _ _ _ _ Hls).
  cbn [append].
  rewrite (readEvent_blank _ _ _ _ _ _ Ht Hne).
  unfold payload in Hdec. now rewrite Hdec.
Qed.


Lemma Recv_exhausted ce bc code :
  Recv (T := T) (live EmptyString ce bc code)
  = (inr (Lib io_EOF), live EmptyString ce bc code).
Proof.
  unfold Recv, live. cbn [closed ctx response RespBody].
  now rewrite readEvent_at_EOF.
Qed.

(** The complete events of a body are received in order; the reader is
    then at [rest]. *)
Lemma recvN_blocks (evs : list block) :
  forall (items : list T) (rest : string) ce bc code,
    forallb well_formed evs = true ->
    decoded evs = map (fun i => (i, None)) items ->
    recvN (length evs) (live (stream_bytes evs ++ rest) ce bc code)
    = (map inl items, live rest ce bc code).
Proof.
  induction evs as [|e evs IH]; intros items rest ce bc code Hwf Hdec.
  - destruct items; [reflexivity | discriminate].
  - destruct items as [|i items]; [discriminate|].
    cbn [forallb] in Hwf. apply andb_true_iff in Hwf as [He Hwf].
    unfold decoded in Hdec. cbn [map] in Hdec.
    injection Hdec as Hi Hdec.
    cbn [length recvN stream_bytes fold_right].
    fold (stream_bytes evs).
    rewrite append_assoc, (Recv_block e _ i ce bc code He Hi).
    now rewrite (IH items rest ce bc code Hwf Hdec).
Qed.

Lemma New_live (resp : Response) :
  read_err (RespBody resp) = None ->
  New None resp
  = live (pending (RespBody resp)) (close_err (RespBody resp))
         (body_closed (RespBody resp)) (StatusCode resp).
Proof. destruct resp as [code [p r c b]]. cbn. now intros ->. Qed.

(** C1. A body made of N well-formed events, each ended by a blank line and
    each with a data payload that decodes into the stream's type: N calls of
    [Recv] on the new stream return the N decoded items in the order of the
    events in the body, and the call after them returns [io.EOF] itself. *)
Theorem Recv_delivers_events_in_order :
  forall (evs : list block) (items : list T) (resp : Response),
    forallb well_formed evs = true ->
    pending (RespBody resp) = stream_bytes evs ->
    read_err (RespBody resp) = None ->
    decoded evs = map (fun i => (i, None)) items ->
    exists s' : Stream,
      recvN (length evs) (New None resp) = (map inl items, s')
      /\ fst (Recv (T := T) s') = inr (Lib io_EOF).
Proof.
  intros evs items resp Hwf Hp Hr Hdec.
  rewrite (New_live resp Hr), Hp, <- (append_nil_r (stream_bytes evs)).
  rewrite (recvN_blocks evs items EmptyString _ _ _ Hwf Hdec).
  eexists; split; [reflexivity|].
  now rewrite Recv_exhausted.
Qed.


(** C4. Whatever the state of a stream, once [Close] has returned every
    later [Recv] returns [ErrStreamClosed] and every later [Close] returns
    nil, and none of them changes the stream: the body is not read again. *)
Theorem closed_is_absorbing :
  forall (s : Stream) (calls : list call),
    IsClosed (snd (Close s)) = true
    /\ run (T := T) calls (snd (Close s))
       = (map after_close calls, snd (Close s)).
Proof.
  intros s calls.
  assert (Hc : closed (snd (Close s)) = true).
  { unfold Close. destruct (closed s) eqn:E; [exact E | reflexivity]. }
  split; [exact Hc|].
  generalize dependent (snd (Close s)). intros s1 Hc.
  induction calls as [|c calls IH]; [reflexivity|].
  cbn [run map]. destruct c; unfold step, Recv, Close; rewrite Hc, IH;
    reflexivity.
Qed.

(** C5. A stream that is not closed and whose context is already done:
    [Recv] returns the error of the context at once and reads nothing. *)
Theorem Recv_context_done :
  forall (s : Stream) (e : lib_error),
    closed s = false ->
    ctx s = Some e ->
    Recv (T := T) s = (inr (Lib e), s).
Proof.
  intros s e Hc He. unfold Recv. now rewrite Hc, He.
Qed.

End RecvFacts.

(** ** The data payload of an event *)

Lemma parseLine_data (ev : sseEvent) (l : string) :
  data (parseLine ev l)
  = match dataValue l with
    | Some v => appendValue (data ev) v
    | None => data ev
    end.
Proof.
  unfold parseLine, dataValue, appendValue.
  destruct (isEmpty (TrimRight l CR)); [reflexivity|].
  destruct (HasPrefix (TrimRight l CR) "id:"); [reflexivity|].
  destruct (HasPrefix (TrimRight l CR) "event:"); [reflexivity|].
  destruct (HasPrefix (TrimRight l CR) "data:"); [reflexivity|].
  destruct (HasPrefix (TrimRight l CR) ":"); [reflexivity|].
  destruct (ContainsByte colon (TrimRight l CR)); [|reflexivity].
  destruct (SplitN2 colon (TrimRight l CR)) as [|p0 [|p1 [|p2 ps]]];
    try reflexivity.
  destruct (TrimSpace p0 =? "id")%string eqn:Eid.
  - apply String.eqb_eq in Eid. rewrite Eid. reflexivity.
  - destruct (TrimSpace p0 =? "event")%string eqn:Eev.
    + apply String.eqb_eq in Eev. rewrite Eev. reflexivity.
    + destruct (TrimSpace p0 =? "data")%string; reflexivity.
Qed.

Lemma fold_parseLine_data (ls : list string) :
  forall ev : sseEvent,
    data (fold_left parseLine ls ev)
    = fold_left appendValue (dataValues ls) (data ev).
Proof.
  induction ls as [|l ls IH]; intros ev; [reflexivity|].
  cbn [fold_left dataValues]. rewrite IH, parseLine_data.
  destruct (dataValue l); reflexivity.
Qed.

Lemma Join_cons (vs : list string) :
  forall v : string, Join (v :: vs) nl = v ++ tailJoin vs.
Proof.
  induction vs as [|w vs IH]; intros v.
  - cbn. now rewrite append_nil_r.
  - change (Join (v :: w :: vs) nl) with (v ++ nl ++ Join (w :: vs) nl).
    now rewrite IH.
Qed.

Lemma appendValue_nonempty (vs : list string) :
  forall d : string,
    isEmpty d = false ->
    fold_left appendValue vs d = d ++ tailJoin vs.
Proof.
  induction vs as [|v vs IH]; intros d Hd.
  - cbn. now rewrite append_nil_r.
  - cbn [fold_left tailJoin fold_right]. fold (tailJoin vs).
    unfold appendValue at 2. rewrite Hd. cbn [negb].
    rewrite IH.
    + now rewrite !append_assoc.
    + rewrite !isEmpty_append, Hd. reflexivity.
Qed.

Lemma appendValue_from_empty (vs : list string) :
  fold_left appendValue vs EmptyString = Join (dropEmpty vs) nl.
Proof.
  induction vs as [|v vs IH]; [reflexivity|].
  cbn [fold_left dropEmpty]. unfold appendValue at 2. cbn.
  destruct (isEmpty v) eqn:Hv.
  - apply isEmpty_true in Hv. subst v. exact IH.
  - rewrite (appendValue_nonempty vs v Hv). symmetry. apply Join_cons.
Qed.

(** C2, as the code has it.  The data payload of a parsed event is the
    values of its data lines joined by one LF between consecutive values,
    once the empty values that come before the first non-empty one are
    dropped: [parseLine] puts the separator only behind data that is not
    empty. *)
Theorem parseEvent_data_joined :
  forall eventStr : string,
    data (parseEvent eventStr)
    = Join (dropEmpty (dataValues (Split LF eventStr))) nl.
Proof.
  intros eventStr. unfold parseEvent.
  set (ev := fold_left parseLine _ _).
  assert (Hev : data ev = Join (dropEmpty (dataValues (Split LF eventStr))) nl).
  { unfold ev. rewrite fold_parseLine_data. apply appendValue_from_empty. }
  destruct (isEmpty (event ev)); exact Hev.
Qed.

(** C2, as the specification words it, fails: an event whose first data
    line has an empty value loses the LF behind that value. *)
Lemma parseEvent_data_not_plain_join :
  ~ (forall eventStr : string,
       2 <= List.length (dataValues (Split LF eventStr)) ->
       data (parseEvent eventStr)
       = Join (dataValues (Split LF eventStr)) nl).
Proof.
  intros Hclaim.
  specialize (Hclaim ("data:" ++ nl ++ "data: x" ++ nl)).
  cbv in Hclaim. specialize (Hclaim (le_n 2)). discriminate.
Qed.

(** ** The error taxonomy *)

(** C7. The machine code of an [APIError] is decided by its status code
    alone, by the table 400, 401, 403, 404, 429, at least 500, anything
    else. *)
Theorem APIError_Code_table :
  forall e e' : APIError,
    (api_StatusCode e = 400%Z -> APIError_Code e = "invalid_request")
    /\ (api_StatusCode e = 401%Z -> APIError_Code e = "authentication_error")
    /\ (api_StatusCode e = 403%Z -> APIError_Code e = "permission_error")
    /\ (api_StatusCode e = 404%Z -> APIError_Code e = "not_found")
    /\ (api_StatusCode e = 429%Z -> APIError_Code e = "rate_limit_exceeded")
    /\ ((500 <= api_StatusCode e)%Z -> APIError_Code e = "server_error")
    /\ ((api_StatusCode e < 500)%Z ->
        ~ In (api_StatusCode e) [400; 401; 403; 404; 429]%Z ->
        APIError_Code e = "api_error")
    /\ (api_StatusCode e = api_StatusCode e' ->
        APIError_Code e = APIError_Code e').
Proof.
  intros e e'. unfold APIError_Code, http.StatusBadRequest,
    http.StatusUnauthorized, http.StatusForbidden, http.StatusNotFound,
    http.StatusTooManyRequests.
  repeat split.
  1-5: intros ->; reflexivity.
  - intros Hs.
    repeat match goal with
           | |- context [(?a =? ?b)%Z] => destruct (Z.eqb_spec a b); [lia|]
           end.
    rewrite Z.geb_leb. destruct (Z.leb_spec 500 (api_StatusCode e)); [reflexivity|lia].
  - intros Hs Hn. cbn [In] in Hn.
    repeat match goal with
           | |- context [(?a =? ?b)%Z] => destruct (Z.eqb_spec a b); [lia|]
           end.
    rewrite Z.geb_leb. destruct (Z.leb_spec 500 (api_StatusCode e)); [lia|reflexivity].
  - intros ->. reflexivity.
Qed.

(** C10. A [RequestError] reports its stored status when that is not zero
    and 500 when none was set, as [ErrCanceled] does. *)
Theorem RequestError_HTTPStatusCode_default :
  forall e : RequestError,
    (req_StatusCode e <> 0%Z -> RequestError_HTTPStatusCode e = req_StatusCode e)
    /\ (req_StatusCode e = 0%Z -> RequestError_HTTPStatusCode e = 500%Z)
    /\ RequestError_HTTPStatusCode ErrCanceled = 500%Z.
Proof.
  intros e. unfold RequestError_HTTPStatusCode. repeat split.
  - intros Hs. destruct (Z.eqb_spec (req_StatusCode e) 0); [contradiction|reflexivity].
  - intros ->. reflexivity.
Qed.

(** ** The transport *)

Section TransportFacts.

Context {T : Type} `{JSON T} `{JSON APIError}.
Variable StatusText : Z -> string.

Lemma non_2xx (code : Z) :
  ~ (200 <= code < 300)%Z -> ((code <? 200) || (code >=? 300))%Z = true.
Proof.
  intros Hc. apply orb_true_iff. rewrite Z.ltb_lt, Z.geb_leb, Z.leb_le. lia.
Qed.

Lemma is_2xx (code : Z) :
  (200 <= code < 300)%Z -> ((code <? 200) || (code >=? 300))%Z = false.
Proof.
  intros Hc. apply orb_false_iff. rewrite Z.ltb_ge, Z.geb_leb, Z.leb_gt. lia.
Qed.

Lemma length_zero (s : string) : (String.length s =? 0)%nat = isEmpty s.
Proof. destruct s; reflexivity. Qed.

(** Every path of [parseErrorResponse] puts the status of the response in
    the error. *)
Lemma parseErrorResponse_status (resp : Response) :
  exists e : APIError,
    fst (rest.parseErrorResponse StatusText resp) = API e
    /\ APIError_HTTPStatusCode e = StatusCode resp.
Proof.
  unfold rest.parseErrorResponse, ReadAll.
  destruct (read_err (RespBody resp)); [eexists; split; reflexivity|].
  destruct (String.length (pending (RespBody resp)) =? 0)%nat;
    [eexists; split; reflexivity|].
  destruct (Unmarshal (pending (RespBody resp)) zero) as [a [err|]];
    eexists; split; reflexivity.
Qed.

(** C6. A response outside 2xx whose body decodes as an [APIError]: the
    transport returns that error with the status of the response in place of
    the decoded [status_code]. *)
Theorem error_response_carries_http_status :
  forall (resp : Response) (result : option T) (decodedErr : APIError),
    ~ (200 <= StatusCode resp < 300)%Z ->
    read_err (RespBody resp) = None ->
    pending (RespBody resp) <> EmptyString ->
    Unmarshal (pending (RespBody resp)) zero = (decodedErr, None) ->
    exists (e : APIError) (resp' : Response),
      rest.handleResponse StatusText resp result = (Some (API e), result, resp')
      /\ APIError_HTTPStatusCode e = StatusCode resp
      /\ e = mkAPIError (StatusCode resp) (api_Message decodedErr)
               (api_Details decodedErr) (api_RequestID decodedErr).
Proof.
  intros resp result a Hc Hr Hne Hdec.
  unfold rest.handleResponse. rewrite (non_2xx _ Hc).
  unfold rest.parseErrorResponse, ReadAll. rewrite Hr, length_zero.
  destruct (isEmpty (pending (RespBody resp))) eqn:He.
  - apply isEmpty_true in He. contradiction.
  - rewrite Hdec. do 2 eexists. repeat split.
Qed.


End TransportFacts.


(** ** Creating a stream from a response *)



(** ** The code on sample inputs *)

(** The reader drops a last line that has no LF: here the data line of the
    last event is lost and the payload that is left does not decode. *)
Example Recv_drops_line_without_LF :
  fst (Recv (H := uint64.json) (live ("id: 1" ++ nl ++ "data: 5") None false 200))
  = inr (Stream_ (mkStreamError "failed to unmarshal event data"
                    (Some (opaque_error
                             "json: cannot unmarshal into Go value of type uint64")))).
Proof. reflexivity. Qed.

(** Blank, comment and unknown lines leave the event as it is; CR LF line
    ends and a field name with spaces around it are accepted. *)
Example parseEvent_fields :
  parseEvent ("data: a " ++ crnl ++ "id: 7" ++ nl ++ " data :  b" ++ nl
              ++ ": c" ++ nl ++ "no colon" ++ nl ++ "event: u" ++ nl)
  = mkEvent "7" "u" ("a" ++ nl ++ "b").
Proof. reflexivity. Qed.

(** [strings.TrimSpace] removes U+00A0, U+2000 and U+3000 like the ASCII
    white space, at both ends only. *)
Example TrimSpace_unicode :
  TrimSpace (" " ++ bytes [194; 160; 226; 128; 128] ++ "a b"
             ++ bytes [227; 128; 128; 9])
  = "a b".
Proof. reflexivity. Qed.

(** [TestStream_Close]: receive, close, receive again, close again. *)
Example close_then_recv :
  fst (run (H := uint64.json) [CallRecv; CallClose; CallRecv; CallClose]
         (New None (mkResponse 200
                      (samples.body ("data: 1" ++ nl ++ nl ++ "data: 2" ++ nl ++ nl)))))
  = [RecvReturned (inl 1%N); CloseReturned None;
     RecvReturned (inr (Stream_ ErrStreamClosed)); CloseReturned None].
Proof. reflexivity. Qed.

Lemma Recv_delivers_events_in_order_witness :
  exists s' : Stream,
    recvN (H := uint64.json) 2
      (New None (mkResponse 200 (samples.body (stream_bytes samples.twoEvents))))
    = ([inl 1%N; inl 2%N], s')
    /\ fst (Recv (H := uint64.json) s') = inr (Lib io_EOF).
Proof.
  apply (Recv_delivers_events_in_order (H := uint64.json)
           samples.twoEvents [1%N; 2%N]
           (mkResponse 200 (samples.body (stream_bytes samples.twoEvents))));
    reflexivity.
Defined.


Lemma Recv_context_done_witness :
  let s := mkStream (cancel None)
             (mkResponse 200 (samples.body ("data: 1" ++ nl ++ nl))) false in
  Recv (H := uint64.json) s = (inr (Lib context_Canceled), s).
Proof.
  apply (Recv_context_done (H := uint64.json)); reflexivity.
Defined.

Lemma error_response_carries_http_status_witness :
  exists (e : APIError) (resp' : Response),
    rest.handleResponse (H := uint64.json) (H0 := samples.apiErrorJSON)
      samples.StatusText (mkResponse 400 (samples.body samples.errorBody))
      (Some 0%N)
    = (Some (API e), Some 0%N, resp')
    /\ APIError_HTTPStatusCode e = 400%Z
    /\ e = mkAPIError 400 "bad field" None EmptyString.
Proof.
  apply (error_response_carries_http_status (H := uint64.json)
           (H0 := samples.apiErrorJSON) samples.StatusText
           (mkResponse 400 (samples.body samples.errorBody)) (Some 0%N)
           (mkAPIError 418 "bad field" None EmptyString)).
  - cbn. lia.
  - reflexivity.
  - discriminate.
  - reflexivity.
Defined.

Lemma APIError_Code_table_witness :
  APIError_Code ErrNotFound = "not_found"
  /\ APIError_Code ErrServerError = "server_error"
  /\ APIError_Code (mkAPIError 418 "teapot" None EmptyString) = "api_error".
Proof.
  split; [|split].
  - apply (APIError_Code_table ErrNotFound ErrNotFound). reflexivity.
  - apply (APIError_Code_table ErrServerError ErrServerError). cbn. lia.
  - apply (APIError_Code_table (mkAPIError 418 "teapot" None EmptyString)
             ErrNotFound).
    + cbn. lia.
    + cbn. lia.
Defined.

Lemma RequestError_HTTPStatusCode_default_witness :
  RequestError_HTTPStatusCode ErrTimeout = 504%Z
  /\ RequestError_HTTPStatusCode ErrCanceled = 500%Z.
Proof.
  split.
  - apply (RequestError_HTTPStatusCode_default ErrTimeout). discriminate.
  - destruct (RequestError_HTTPStatusCode_default ErrCanceled) as (_ & Hzero & _).
    apply Hzero. reflexivity.
Defined.



(** * Further properties of the stream engine *)

(** ** What a read takes from the body *)

Lemma cutLine_split (s : string) :
  forall l r, cutLine s = Some (l, r) -> s = l ++ r.
Proof.
  induction s as [|c s IH]; intros l r Hs; [discriminate|].
  cbn [cutLine] in Hs. destruct (Ascii.eqb c LF).
  - inversion Hs; subst. reflexivity.
  - destruct (cutLine s) as [[l0 r0]|]; [|discriminate].
    inversion Hs; subst. cbn. now rewrite (IH l0 r eq_refl).
Qed.

Lemma cutLine_shorter (s : string) :
  forall l r, cutLine s = Some (l, r) -> String.length r < String.length s.
Proof.
  induction s as [|c s IH]; intros l r Hs; [discriminate|].
  cbn [cutLine] in Hs. destruct (Ascii.eqb c LF).
  - inversion Hs; subst. cbn. lia.
  - destruct (cutLine s) as [[l0 r0]|]; [|discriminate].
    inversion Hs; subst. specialize (IH l0 r eq_refl). cbn. lia.
Qed.

Lemma cutLine_none (s : string) :
  cutLine s = None <-> ContainsByte LF s = false.
Proof.
  induction s as [|c s IH]; [cbn; tauto|].
  cbn [cutLine ContainsByte]. destruct (Ascii.eqb c LF).
  - split; discriminate.
  - destruct (cutLine s) as [[l r]|]; split; intros E;
      try discriminate; try reflexivity.
    + apply IH in E. discriminate.
    + now apply IH.
Qed.

Lemma ContainsByte_append (c : ascii) (a b : string) :
  ContainsByte c (a ++ b) = ContainsByte c a || ContainsByte c b.
Proof.
  induction a as [|d a IH]; [reflexivity|].
  cbn. destruct (Ascii.eqb d c); [reflexivity | exact IH].
Qed.

Lemma cutLine_append (p q : string) :
  cutLine (p ++ q)
  = match cutLine p with
    | Some (l, r) => Some (l, r ++ q)
    | None =>
        match cutLine q with
        | Some (l, r) => Some (p ++ l, r)
        | None => None
        end
    end.
Proof.
  induction p as [|c p IH].
  - cbn. destruct (cutLine q) as [[l r]|]; reflexivity.
  - cbn [append cutLine]. destruct (Ascii.eqb c LF); [reflexivity|].
    rewrite IH. destruct (cutLine p) as [[l r]|]; [reflexivity|].
    destruct (cutLine q) as [[l r]|]; reflexivity.
Qed.

Lemma ReadString_takes (b : Body) :
  forall line err b',
    ReadString b = (line, err, b') ->
    same_source b b' /\ pending b = line ++ pending b'.
Proof.
  intros line err b' E. unfold ReadString in E.
  destruct (cutLine (pending b)) as [[l r]|] eqn:Hc; inversion E; subst;
    unfold same_source; cbn.
  - repeat split. now apply cutLine_split.
  - repeat split. now rewrite append_nil_r.
Qed.

Lemma ReadString_progress (b : Body) :
  forall line b',
    ReadString b = (line, None, b') ->
    String.length (pending b') < String.length (pending b).
Proof.
  intros line b' E. unfold ReadString in E.
  destruct (cutLine (pending b)) as [[l r]|] eqn:Hc; inversion E; subst.
  cbn. eapply cutLine_shorter; eassumption.
Qed.

(** [readEvent] only takes bytes from the front of the body. *)
Lemma readEvent_takes (n : nat) :
  forall (b : Body) (buffer : string),
    String.length (pending b) <= n ->
    same_source b (snd (readEvent b buffer))
    /\ exists taken : string,
         pending b = taken ++ pending (snd (readEvent b buffer)).
Proof.
  induction n as [|n IH]; intros b buffer Hn; rewrite readEvent_unfold;
    destruct (ReadString b) as [[line [err|]] b'] eqn:E;
    destruct (ReadString_takes _ _ _ _ E) as [(Hr & Hc & Hb) Hp].
  1,3: destruct err; cbn; try destruct (isEmpty buffer); cbn;
      (split; [repeat split; assumption | eexists; eassumption]).
  - apply ReadString_progress in E. lia.
  - apply ReadString_progress in E.
    assert (Hn' : String.length (pending b') <= n) by lia.
    destruct ((line =? nl)%string || (line =? crnl)%string).
    + destruct (isEmpty buffer); cbn [negb].
      * destruct (IH b' buffer Hn') as [(Hr' & Hc' & Hb') [t Ht]].
        split; [repeat split; congruence|].
        exists (line ++ t). now rewrite Hp, Ht at 1; rewrite append_assoc.
      * split; [repeat split; assumption | eexists; eassumption].
    + destruct (IH b' (buffer ++ line) Hn') as [(Hr' & Hc' & Hb') [t Ht]].
      split; [repeat split; congruence|].
      exists (line ++ t). now rewrite Hp, Ht at 1; rewrite append_assoc.
Qed.

Section RecvMore.

Context {T : Type} `{JSON T}.

(** X1.  [Recv] changes nothing of a stream but the position of the reader, and
    that only forwards: it never closes the stream or the body and never
    touches the context. *)
Theorem Recv_only_consumes :
  forall s : Stream,
    closed (snd (Recv (T := T) s)) = closed s
    /\ ctx (snd (Recv (T := T) s)) = ctx s
    /\ StatusCode (response (snd (Recv (T := T) s))) = StatusCode (response s)
    /\ same_source (RespBody (response s))
         (RespBody (response (snd (Recv (T := T) s))))
    /\ exists taken : string,
         pending (RespBody (response s))
         = taken ++ pending (RespBody (response (snd (Recv (T := T) s)))).
Proof.
  intros s. unfold Recv.
  destruct (closed s) eqn:Hc.
  { cbn. rewrite Hc. repeat split. now exists EmptyString. }
  destruct (ctx s) eqn:Hx.
  { cbn. rewrite Hc, Hx. repeat split. now exists EmptyString. }
  destruct (readEvent_takes _ (RespBody (response s)) EmptyString (le_n _))
    as [Hsrc Htaken].
  destruct (readEvent (RespBody (response s)) EmptyString) as [r b'].
  cbn [snd] in Hsrc, Htaken.
  assert (Hgoal : forall res : T + error,
             closed (snd (res, mkStream None (with_body (response s) b') false)) = false
             /\ ctx (snd (res, mkStream None (with_body (response s) b') false)) = None
             /\ StatusCode (response (snd (res, mkStream None (with_body (response s) b') false)))
                = StatusCode (response s)
             /\ same_source (RespBody (response s))
                  (RespBody (response (snd (res, mkStream None (with_body (response s) b') false))))
             /\ exists taken : string,
                  pending (RespBody (response s))
                  = taken ++ pending (RespBody (response
                       (snd (res, mkStream None (with_body (response s) b') false))))).
  { intros res. cbn. repeat split; try apply Hsrc. exact Htaken. }
  destruct r as [ev|err]; [|apply Hgoal].
  destruct (Unmarshal (data ev) zero) as [item [e|]]; apply Hgoal.
Qed.

End RecvMore.

(** ** Bytes behind the last LF *)

Lemma ReadString_tail (b1 b2 : Body) :
  tail_rel b1 b2 ->
  match ReadString b2 with
  | (line, None, b2') =>
      exists b1', ReadString b1 = (line, None, b1') /\ tail_rel b1' b2'
  | (_, Some err, b2') =>
      exists line1 b1', ReadString b1 = (line1, Some err, b1') /\ tail_rel b1' b2'
  end.
Proof.
  intros [(Hr & Hc & Hb) [q [Hq Hp]]]. unfold ReadString.
  rewrite Hp, cutLine_append.
  destruct (cutLine (pending b2)) as [[l r]|].
  - eexists; split; [reflexivity|].
    split; [repeat split; assumption | exists q; split; [exact Hq | reflexivity]].
  - unfold noLF in Hq. apply negb_true_iff, cutLine_none in Hq. rewrite Hq, Hr.
    do 2 eexists; split; [reflexivity|].
    split; [repeat split; assumption|].
    exists EmptyString. split; reflexivity.
Qed.

Lemma readEvent_tail (n : nat) :
  forall (b1 b2 : Body) (buffer : string),
    String.length (pending b2) <= n ->
    tail_rel b1 b2 ->
    fst (readEvent b1 buffer) = fst (readEvent b2 buffer)
    /\ tail_rel (snd (readEvent b1 buffer)) (snd (readEvent b2 buffer)).
Proof.
  induction n as [|n IH]; intros b1 b2 buffer Hn Hrel;
    rewrite (readEvent_unfold b1), (readEvent_unfold b2);
    pose proof (ReadString_tail b1 b2 Hrel) as Hread;
    destruct (ReadString b2) as [[line [err|]] b2'] eqn:E2.
  1,3: destruct Hread as (line1 & b1' & -> & Hrel');
    destruct err; try destruct (isEmpty buffer); cbn; split;
      try reflexivity; exact Hrel'.
  - apply ReadString_progress in E2. lia.
  - apply ReadString_progress in E2.
    assert (Hn' : String.length (pending b2') <= n) by lia.
    destruct Hread as (b1' & -> & Hrel').
    destruct ((line =? nl)%string || (line =? crnl)%string).
    + destruct (isEmpty buffer); cbn [negb].
      * now apply IH.
      * cbn. split; [reflexivity | exact Hrel'].
    + now apply IH.
Qed.

Section TailFacts.

Context {T : Type} `{JSON T}.

Lemma Recv_tail (s1 s2 : Stream) :
  stream_tail s1 s2 ->
  fst (Recv (T := T) s1) = fst (Recv (T := T) s2)
  /\ stream_tail (snd (Recv (T := T) s1)) (snd (Recv (T := T) s2)).
Proof.
  intros Hst0. pose proof Hst0 as (Hx & Hc & Hs & Hrel).
  unfold Recv. rewrite Hx, Hc.
  destruct (closed s2) eqn:Hc2.
  { cbn. split; [reflexivity | exact Hst0]. }
  destruct (ctx s2) eqn:Hx2.
  { cbn. split; [reflexivity | exact Hst0]. }
  destruct (readEvent_tail _ _ _ EmptyString (le_n _) Hrel) as [Hres Hrel'].
  destruct (readEvent (RespBody (response s1)) EmptyString) as [r1 b1'].
  destruct (readEvent (RespBody (response s2)) EmptyString) as [r2 b2'].
  cbn [fst snd] in Hres, Hrel'. subst r2.
  assert (Hst : stream_tail (mkStream None (with_body (response s1) b1') false)
                  (mkStream None (with_body (response s2) b2') false)).
  { exact (conj eq_refl (conj eq_refl (conj Hs Hrel'))). }
  destruct r1 as [ev|err]; [|split; [reflexivity | exact Hst]].
  destruct (Unmarshal (data ev) zero) as [item [e|]];
    (split; [reflexivity | exact Hst]).
Qed.

Lemma recvN_tail (n : nat) :
  forall s1 s2 : Stream,
    stream_tail s1 s2 ->
    fst (recvN (T := T) n s1) = fst (recvN (T := T) n s2).
Proof.
  induction n as [|n IH]; intros s1 s2 Hrel; [reflexivity|].
  cbn [recvN]. destruct (Recv_tail s1 s2 Hrel) as [Hres Hrel'].
  destruct (Recv s1) as [r1 s1']. destruct (Recv s2) as [r2 s2'].
  cbn [fst snd] in Hres, Hrel'. subst r2.
  specialize (IH s1' s2' Hrel').
  destruct (recvN n s1') as [rs1 t1]. destruct (recvN n s2') as [rs2 t2].
  cbn [fst] in IH |- *. now rewrite IH.
Qed.

(** X2.  Bytes behind the last LF of the body never reach a caller: whatever the
    state of the stream and however many calls are made, the results are
    those of the same stream without these bytes. *)
Theorem bytes_behind_last_LF_are_dropped :
  forall (n : nat) (s : Stream) (q : string),
    noLF q = true ->
    fst (recvN (T := T) n (with_tail s q)) = fst (recvN (T := T) n s).
Proof.
  intros n s q Hq. apply recvN_tail. unfold with_tail.
  split; [reflexivity|]. split; [reflexivity|]. split; [reflexivity|].
  split; [repeat split|]. exists q. split; [exact Hq | reflexivity].
Qed.

(** ** Blank lines, failures and the end of the data *)

Lemma readEvent_skip_blank (re ce : option lib_error) (bc : bool)
  (t rest : string) :
  terminator t = true ->
  readEvent (mkBody (t ++ rest) re ce bc) EmptyString
  = readEvent (mkBody rest re ce bc) EmptyString.
Proof.
  intros Ht. unfold terminator in Ht. rewrite readEvent_unfold.
  apply orb_true_iff in Ht as [Ht|Ht]; apply String.eqb_eq in Ht; subst t;
    reflexivity.
Qed.

Lemma readEvent_skip_blank_lines (re ce : option lib_error) (bc : bool)
  (ts : list string) (rest : string) :
  forallb terminator ts = true ->
  readEvent (mkBody (blank_lines ts ++ rest) re ce bc) EmptyString
  = readEvent (mkBody rest re ce bc) EmptyString.
Proof.
  induction ts as [|t ts IH]; intros Hts; [reflexivity|].
  cbn [forallb] in Hts. apply andb_true_iff in Hts as [Ht Hts].
  cbn [blank_lines fold_right]. fold (blank_lines ts).
  rewrite append_assoc, (readEvent_skip_blank _ _ _ _ _ Ht). now apply IH.
Qed.

(** X3.  Blank lines in front of an event are skipped, however many; a body of
    blank lines only holds no event. *)
Theorem Recv_skips_blank_lines :
  forall (ts : list string) (e : block) (rest : string) (item : T)
         (ce : option lib_error) (bc : bool) (code : Z),
    forallb terminator ts = true ->
    well_formed e = true ->
    Unmarshal (payload (lines e)) zero = (item, None) ->
    Recv (live (blank_lines ts ++ block_bytes e ++ rest) ce bc code)
    = (inl item, live rest ce bc code)
    /\ Recv (T := T) (live (blank_lines ts) ce bc code)
       = (inr (Lib io_EOF), live EmptyString ce bc code).
Proof.
  intros ts e rest item ce bc code Hts Hwf Hdec. split.
  - rewrite <- (Recv_block e rest item ce bc code Hwf Hdec).
    unfold Recv, live. cbn [closed ctx response RespBody].
    now rewrite (readEvent_skip_blank_lines _ _ _ ts _ Hts).
  - rewrite <- (Recv_exhausted ce bc code).
    unfold Recv, live. cbn [closed ctx response RespBody].
    rewrite <- (append_nil_r (blank_lines ts)).
    now rewrite (readEvent_skip_blank_lines _ _ _ ts _ Hts).
Qed.

(** X4.  An event whose payload does not decode costs one call: that call
    returns a [StreamError] around the cause, the stream stays open behind
    the event, and the next call returns the next event. *)
Theorem Recv_continues_after_decode_failure :
  forall (e1 e2 : block) (rest : string) (v item : T) (cause : lib_error)
         (ce : option lib_error) (bc : bool) (code : Z),
    well_formed e1 = true ->
    well_formed e2 = true ->
    Unmarshal (payload (lines e1)) zero = (v, Some cause) ->
    Unmarshal (payload (lines e2)) zero = (item, None) ->
    recvN 2 (live (block_bytes e1 ++ block_bytes e2 ++ rest) ce bc code)
    = ([inr (Stream_ (mkStreamError "failed to unmarshal event data"
                        (Some cause)));
        inl item],
       live rest ce bc code).
Proof.
  intros e1 e2 rest v item cause ce bc code Hwf1 Hwf2 Hd1 Hd2.
  cbn [recvN].
  assert (H1 : Recv (T := T) (live (block_bytes e1 ++ block_bytes e2 ++ rest) ce bc code)
               = (inr (Stream_ (mkStreamError "failed to unmarshal event data"
                                  (Some cause))),
                  live (block_bytes e2 ++ rest) ce bc code)).
  { unfold well_formed in Hwf1. apply andb_true_iff in Hwf1 as [Hls Ht].
    apply event_lines_nonempty in Hls as [Hls Hne].
    unfold Recv, live, block_bytes. cbn [closed ctx response RespBody].
    rewrite append_assoc, (readEvent_event_text _ _ _ _ _ _ Hls).
    cbn [append]. rewrite (readEvent_blank _ _ _ _ _ _ Ht Hne).
    unfold payload in Hd1. now rewrite Hd1. }
  rewrite H1, (Recv_block e2 rest item ce bc code Hwf2 Hd2). reflexivity.
Qed.

(** X5.  A read that fails with something else than [io.EOF] is reported as a
    [StreamError] around the cause; the lines accumulated for the event
    under way are given up. *)
Theorem Recv_read_failure :
  forall (ls : list string) (partial : string) (cause : lib_error)
         (ce : option lib_error) (bc : bool) (code : Z),
    forallb event_line ls = true ->
    noLF partial = true ->
    cause <> io_EOF ->
    Recv (T := T)
      (mkStream None
         (mkResponse code (mkBody (event_text ls ++ partial) (Some cause) ce bc))
         false)
    = (inr (Stream_ (mkStreamError "error reading from stream" (Some cause))),
       mkStream None (mkResponse code (mkBody EmptyString (Some cause) ce bc))
         false).
Proof.
  intros ls partial cause ce bc code Hls Hq Hcause.
  unfold Recv. cbn [closed ctx response RespBody].
  rewrite (readEvent_event_text _ _ _ _ _ _ Hls), readEvent_unfold.
  unfold ReadString. cbn [pending read_err].
  unfold noLF in Hq. apply negb_true_iff, cutLine_none in Hq. rewrite Hq.
  destruct cause; try reflexivity. contradiction.
Qed.

End TailFacts.

Lemma readEvent_EOF_inv (n : nat) :
  forall (b b' : Body) (buffer : string),
    String.length (pending b) <= n ->
    readEvent b buffer = (inr (Lib io_EOF), b') ->
    pending b' = EmptyString
    /\ (read_err b' = None \/ read_err b' = Some io_EOF).
Proof.
  induction n as [|n IH]; intros b b' buffer Hn; rewrite readEvent_unfold;
    destruct (ReadString b) as [[line [err|]] b1] eqn:E.
  1,3: unfold ReadString in E;
    destruct (cutLine (pending b)) as [[l r]|]; [discriminate|];
    inversion E; subst; clear E;
    destruct (read_err b) as [[| | |msg]|] eqn:Hr; try discriminate;
    destruct (isEmpty buffer); cbn; try discriminate;
    intros E; inversion E; subst; cbn; rewrite Hr; auto.
  - apply ReadString_progress in E. lia.
  - apply ReadString_progress in E.
    assert (Hn' : String.length (pending b1) <= n) by lia.
    destruct ((line =? nl)%string || (line =? crnl)%string).
    + destruct (isEmpty buffer); cbn [negb]; [|discriminate].
      now apply IH.
    + now apply IH.
Qed.

Section EndOfData.

Context {T : Type} `{JSON T}.

(** X6.  Once [Recv] has returned [io.EOF] the stream is still open, and every
    further call returns [io.EOF] again and leaves the stream as it is (the
    body, as embedded, keeps reporting the end of its data). *)
Theorem EOF_is_stable :
  forall s s' : Stream,
    Recv (T := T) s = (inr (Lib io_EOF), s') ->
    IsClosed s' = false /\ Recv (T := T) s' = (inr (Lib io_EOF), s').
Proof.
  intros s s'. unfold Recv at 1, IsClosed.
  destruct (closed s) eqn:Hc; [discriminate|].
  destruct (ctx s) as [e|] eqn:Hx.
  { intros E. inversion E; subst. split; [exact Hc|].
    unfold Recv. now rewrite Hc, Hx. }
  destruct (readEvent (RespBody (response s)) EmptyString) as [r b'] eqn:Hread.
  destruct r as [ev|err].
  { destruct (Unmarshal (data ev) zero) as [item [e|]]; discriminate. }
  intros E. inversion E; subst. clear E.
  apply (readEvent_EOF_inv _ _ _ _ (le_n _)) in Hread as [Hp Hr].
  split; [reflexivity|].
  unfold Recv. cbn [closed ctx response RespBody with_body].
  rewrite readEvent_unfold. unfold ReadString.
  destruct b' as [p re ce bc]. cbn in Hp, Hr. subst p.
  destruct Hr as [-> | ->]; reflexivity.
Qed.

End EndOfData.

(** ** The lines of an event *)

Lemma Split_line (l rest : string) :
  noLF l = true ->
  Split LF (l ++ nl ++ rest) = l :: Split LF rest.
Proof.
  unfold noLF. induction l as [|c l IH]; intros Hl.
  - reflexivity.
  - cbn [ContainsByte] in Hl.
    change (String c l ++ nl ++ rest) with (String c (l ++ nl ++ rest)).
    cbn [Split]. destruct (Ascii.eqb c LF); [discriminate|].
    now rewrite (IH Hl).
Qed.

Lemma Split_event_text (ls : list string) :
  forallb noLF ls = true ->
  Split LF (event_text ls) = (ls ++ [EmptyString])%list.
Proof.
  induction ls as [|l ls IH]; intros Hls; [reflexivity|].
  cbn [forallb] in Hls. apply andb_true_iff in Hls as [Hl Hls].
  cbn [event_text fold_right]. fold (event_text ls).
  rewrite (Split_line l _ Hl), (IH Hls). reflexivity.
Qed.

Lemma parseLine_empty (ev : sseEvent) : parseLine ev EmptyString = ev.
Proof. reflexivity. Qed.

Lemma fold_parseLine_event_text (ls : list string) (ev : sseEvent) :
  forallb noLF ls = true ->
  fold_left parseLine (Split LF (event_text ls)) ev = fold_left parseLine ls ev.
Proof.
  intros Hls. rewrite (Split_event_text ls Hls), fold_left_app. reflexivity.
Qed.

Lemma HasPrefix_split (p : string) :
  forall l, HasPrefix l p = true -> exists r, l = p ++ r.
Proof.
  unfold HasPrefix. induction p as [|c p IH]; intros l Hl.
  - now exists l.
  - destruct l as [|d l]; [discriminate|]. cbn in Hl.
    destruct (ascii_dec c d) as [->|]; [|discriminate].
    destruct (IH l Hl) as [r ->]. now exists r.
Qed.

Lemma parseLine_ignored (c : string) :
  ignoredLine c = true -> forall ev, parseLine ev c = ev.
Proof.
  unfold ignoredLine, parseLine. intros Hc ev.
  destruct (isEmpty (TrimRight c CR)); [reflexivity|].
  apply orb_true_iff in Hc as [Hc|Hc].
  - destruct (HasPrefix_split _ _ Hc) as [r ->].
    change (":" ++ r) with (String ":"%char r). unfold HasPrefix.
    cbn [String.prefix].
    destruct (ascii_dec "i" ":") as [E|_]; [discriminate E|].
    destruct (ascii_dec "e" ":") as [E|_]; [discriminate E|].
    destruct (ascii_dec "d" ":") as [E|_]; [discriminate E|].
    destruct (ascii_dec ":" ":") as [_|E]; [|contradiction].
    now destruct r.
  - apply negb_true_iff in Hc.
    destruct (HasPrefix (TrimRight c CR) "id:") eqn:H1.
    { destruct (HasPrefix_split _ _ H1) as [r Hr]. rewrite Hr in Hc. discriminate. }
    destruct (HasPrefix (TrimRight c CR) "event:") eqn:H2.
    { destruct (HasPrefix_split _ _ H2) as [r Hr]. rewrite Hr in Hc. discriminate. }
    destruct (HasPrefix (TrimRight c CR) "data:") eqn:H3.
    { destruct (HasPrefix_split _ _ H3) as [r Hr]. rewrite Hr in Hc. discriminate. }
    destruct (HasPrefix (TrimRight c CR) ":"); [reflexivity|].
    now rewrite Hc.
Qed.

(** X7.  A comment line and a line without a colon change nothing, wherever
    they stand among the lines of an event. *)
Theorem parseEvent_ignores_comments_and_bare_lines :
  forall (before after : list string) (c : string),
    forallb noLF (before ++ c :: after)%list = true ->
    ignoredLine c = true ->
    parseEvent (event_text (before ++ c :: after)%list)
    = parseEvent (event_text (before ++ after)%list).
Proof.
  intros before after c Hls Hc. unfold parseEvent.
  assert (Hls' : forallb noLF (before ++ after)%list = true).
  { rewrite forallb_app in Hls |- *. cbn [forallb] in Hls.
    apply andb_true_iff in Hls as [Hb Ha]. apply andb_true_iff in Ha as [_ Ha].
    now rewrite Hb, Ha. }
  rewrite (fold_parseLine_event_text _ _ Hls), (fold_parseLine_event_text _ _ Hls').
  rewrite !fold_left_app. cbn [fold_left].
  now rewrite (parseLine_ignored c Hc).
Qed.

Lemma parseLine_id (ev : sseEvent) (l : string) :
  id (parseLine ev l)
  = match idValue l with Some v => v | None => id ev end.
Proof.
  unfold parseLine, idValue.
  destruct (isEmpty (TrimRight l CR)); [reflexivity|].
  destruct (HasPrefix (TrimRight l CR) "id:"); [reflexivity|].
  destruct (HasPrefix (TrimRight l CR) "event:"); [reflexivity|].
  destruct (HasPrefix (TrimRight l CR) "data:"); [reflexivity|].
  destruct (HasPrefix (TrimRight l CR) ":"); [reflexivity|].
  destruct (ContainsByte colon (TrimRight l CR)); [|reflexivity].
  destruct (SplitN2 colon (TrimRight l CR)) as [|p0 [|p1 [|p2 ps]]];
    try reflexivity.
  destruct (TrimSpace p0 =? "id")%string; [reflexivity|].
  destruct (TrimSpace p0 =? "event")%string; [reflexivity|].
  destruct (TrimSpace p0 =? "data")%string; reflexivity.
Qed.

Lemma parseLine_event (ev : sseEvent) (l : string) :
  event (parseLine ev l)
  = match eventValue l with Some v => v | None => event ev end.
Proof.
  unfold parseLine, eventValue.
  destruct (isEmpty (TrimRight l CR)); [reflexivity|].
  destruct (HasPrefix (TrimRight l CR) "id:"); [reflexivity|].
  destruct (HasPrefix (TrimRight l CR) "event:"); [reflexivity|].
  destruct (HasPrefix (TrimRight l CR) "data:"); [reflexivity|].
  destruct (HasPrefix (TrimRight l CR) ":"); [reflexivity|].
  destruct (ContainsByte colon (TrimRight l CR)); [|reflexivity].
  destruct (SplitN2 colon (TrimRight l CR)) as [|p0 [|p1 [|p2 ps]]];
    try reflexivity.
  destruct (TrimSpace p0 =? "id")%string; [reflexivity|].
  destruct (TrimSpace p0 =? "event")%string; [reflexivity|].
  destruct (TrimSpace p0 =? "data")%string; reflexivity.
Qed.

Lemma last_cons (v d : string) (vs : list string) :
  last (v :: vs) d = last vs v.
Proof.
  revert v d. induction vs as [|w vs IH]; intros v d; [reflexivity|].
  change (last (v :: w :: vs) d) with (last (w :: vs) d).
  now rewrite (IH w d), (IH w v).
Qed.

Lemma fold_parseLine_last (ls : list string) :
  forall ev : sseEvent,
    id (fold_left parseLine ls ev) = last (collect idValue ls) (id ev)
    /\ event (fold_left parseLine ls ev)
       = last (collect eventValue ls) (event ev).
Proof.
  induction ls as [|l ls IH]; intros ev; [split; reflexivity|].
  cbn [fold_left collect]. destruct (IH (parseLine ev l)) as [Hi He].
  rewrite Hi, He, parseLine_id, parseLine_event.
  split.
  - destruct (idValue l); [now rewrite last_cons | reflexivity].
  - destruct (eventValue l); [now rewrite last_cons | reflexivity].
Qed.

(** X8.  The id of a parsed event is the value of its last id line, empty
    without one; its type is the value of its last event line, and
    ["message"] without one or when that value is empty. *)
Theorem parseEvent_last_field_wins :
  forall eventStr : string,
    id (parseEvent eventStr)
    = last (collect idValue (Split LF eventStr)) EmptyString
    /\ event (parseEvent eventStr)
       = (if isEmpty (last (collect eventValue (Split LF eventStr)) EmptyString)
          then "message"
          else last (collect eventValue (Split LF eventStr)) EmptyString).
Proof.
  intros eventStr. unfold parseEvent.
  destruct (fold_parseLine_last (Split LF eventStr)
              (mkEvent EmptyString EmptyString EmptyString)) as [Hi He].
  cbn [id event] in Hi, He. rewrite <- Hi, <- He.
  destruct (isEmpty (event _)); split; reflexivity.
Qed.

(** ** CR LF line ends *)

Lemma list_ascii_of_string_append (a b : string) :
  list_ascii_of_string (a ++ b)
  = (list_ascii_of_string a ++ list_ascii_of_string b)%list.
Proof. induction a as [|c a IH]; cbn; [reflexivity | now rewrite IH]. Qed.

Lemma string_of_list_ascii_app (a b : list ascii) :
  string_of_list_ascii (a ++ b)%list
  = string_of_list_ascii a ++ string_of_list_ascii b.
Proof. induction a as [|c a IH]; cbn; [reflexivity | now rewrite IH]. Qed.

Lemma reverse_snoc (s : string) (c : ascii) :
  reverse (s ++ String c EmptyString) = String c (reverse s).
Proof.
  unfold reverse. rewrite list_ascii_of_string_append, rev_app_distr.
  reflexivity.
Qed.

Lemma TrimRight_addCR (l : string) : TrimRight (addCR l) CR = TrimRight l CR.
Proof. unfold TrimRight, addCR. rewrite reverse_snoc. reflexivity. Qed.

Lemma parseLine_addCR (ev : sseEvent) (l : string) :
  parseLine ev (addCR l) = parseLine ev l.
Proof. unfold parseLine. now rewrite TrimRight_addCR. Qed.

Lemma fold_parseLine_addCR (ls : list string) :
  forall ev, fold_left parseLine (map addCR ls) ev = fold_left parseLine ls ev.
Proof.
  induction ls as [|l ls IH]; intros ev; [reflexivity|].
  cbn [map fold_left]. now rewrite parseLine_addCR.
Qed.

Lemma noLF_addCR (l : string) : noLF (addCR l) = noLF l.
Proof.
  unfold noLF, addCR. rewrite ContainsByte_append. cbn. now rewrite orb_false_r.
Qed.

Lemma event_line_noLF (l : string) : event_line l = true -> noLF l = true.
Proof.
  unfold event_line, noLF. intros Hl.
  apply andb_true_iff in Hl as [Hl _]. now apply andb_true_iff in Hl as [Hl _].
Qed.

Lemma event_line_addCR (l : string) :
  event_line l = true -> event_line (addCR l) = true.
Proof.
  intros Hl. pose proof (event_line_noLF l Hl) as Hn.
  rewrite <- noLF_addCR in Hn. unfold noLF in Hn.
  unfold event_line in *. rewrite Hn. cbn [andb].
  apply andb_true_iff in Hl as [Hl _]. apply andb_true_iff in Hl as [_ Hl].
  destruct l as [|c l]; [discriminate|].
  unfold addCR. cbn [append isEmpty negb andb].
  apply negb_true_iff, String.eqb_neq. intros E. inversion E.
  destruct l; discriminate.
Qed.

Lemma parseEvent_addCR (ls : list string) :
  forallb noLF ls = true ->
  parseEvent (event_text (map addCR ls)) = parseEvent (event_text ls).
Proof.
  intros Hls. unfold parseEvent.
  assert (Hls' : forallb noLF (map addCR ls) = true).
  { rewrite forallb_forall in Hls |- *. intros x Hx.
    apply in_map_iff in Hx as [l [<- Hl]]. rewrite noLF_addCR. now apply Hls. }
  rewrite (fold_parseLine_event_text _ _ Hls), (fold_parseLine_event_text _ _ Hls').
  now rewrite fold_parseLine_addCR.
Qed.

Section CRLF.

Context {T : Type} `{JSON T}.

(** X9.  An event sent with CR LF line ends is received like the same event with
    LF line ends. *)
Theorem Recv_accepts_CRLF :
  forall (e : block) (rest : string) (item : T)
         (ce : option lib_error) (bc : bool) (code : Z),
    well_formed e = true ->
    Unmarshal (payload (lines e)) zero = (item, None) ->
    Recv (live (block_bytes (mkBlock (map addCR (lines e)) crnl) ++ rest)
            ce bc code)
    = (inl item, live rest ce bc code).
Proof.
  intros e rest item ce bc code Hwf Hdec.
  unfold well_formed in Hwf. apply andb_true_iff in Hwf as [Hls _].
  assert (Hall : forallb event_line (lines e) = true)
    by (destruct (lines e); [discriminate | exact Hls]).
  apply Recv_block.
  - unfold well_formed. cbn [lines blank]. apply andb_true_iff. split; [|reflexivity].
    unfold event_lines in *. destruct (lines e) as [|l ls]; [discriminate|].
    cbn [map]. rewrite forallb_forall in Hall |- *. intros x Hx.
    change (addCR l :: map addCR ls) with (map addCR (l :: ls)) in Hx.
    apply in_map_iff in Hx as [y [<- Hy]]. apply event_line_addCR. now apply Hall.
  - cbn [lines]. unfold payload in *. rewrite parseEvent_addCR; [exact Hdec|].
    rewrite forallb_forall in Hall |- *. intros x Hx.
    apply event_line_noLF. now apply Hall.
Qed.

End CRLF.

(** * The REST client *)

Import client.

Lemma handleResponse_status {T : Type} `{JSON T} `{JSON APIError}
  (StatusText : Z -> string) (resp : Response) (result : option T) :
  StatusCode (snd (rest.handleResponse StatusText resp result)) = StatusCode resp.
Proof.
  unfold rest.handleResponse, rest.parseErrorResponse, ReadAll.
  destruct ((StatusCode resp <? 200)%Z || (StatusCode resp >=? 300)%Z).
  - destruct (read_err (RespBody resp)); [reflexivity|].
    destruct (String.length (pending (RespBody resp)) =? 0)%nat; [reflexivity|].
    destruct (Unmarshal (pending (RespBody resp)) zero) as [a [e|]]; reflexivity.
  - destruct result as [v|]; [|reflexivity].
    destruct (StatusCode resp =? http.StatusNoContent)%Z; [reflexivity|].
    destruct (read_err (RespBody resp)); [reflexivity|].
    destruct (String.length (pending (RespBody resp)) =? 0)%nat; [reflexivity|].
    destruct (Unmarshal (pending (RespBody resp)) v) as [v' [e|]]; reflexivity.
Qed.

Lemma handleResponse_error_kind {T : Type} `{JSON T} `{JSON APIError}
  (StatusText : Z -> string) (resp : Response) (result : option T) :
  match fst (fst (rest.handleResponse StatusText resp result)) with
  | None => is2xx (StatusCode resp)
  | Some (API a) =>
      ~ is2xx (StatusCode resp) /\ api_StatusCode a = StatusCode resp
  | Some (Request r) =>
      is2xx (StatusCode resp) /\ req_StatusCode r = StatusCode resp
      /\ req_Err r <> None
  | Some _ => False
  end.
Proof.
  unfold rest.handleResponse, rest.parseErrorResponse, ReadAll, is2xx.
  destruct ((StatusCode resp <? 200)%Z || (StatusCode resp >=? 300)%Z) eqn:Hc.
  - assert (Hn : ~ (200 <= StatusCode resp < 300)%Z).
    { apply orb_true_iff in Hc. rewrite Z.ltb_lt, Z.geb_leb, Z.leb_le in Hc. lia. }
    destruct (read_err (RespBody resp)); [cbn; auto|].
    destruct (String.length (pending (RespBody resp)) =? 0)%nat; [cbn; auto|].
    destruct (Unmarshal (pending (RespBody resp)) zero) as [a [e|]]; cbn; auto.
  - assert (Hy : (200 <= StatusCode resp < 300)%Z).
    { apply orb_false_iff in Hc. rewrite Z.ltb_ge, Z.geb_leb, Z.leb_gt in Hc. lia. }
    destruct result as [v|]; [|exact Hy].
    destruct (StatusCode resp =? http.StatusNoContent)%Z; [exact Hy|].
    destruct (read_err (RespBody resp));
      [cbn; split; [exact Hy | split; [reflexivity | discriminate]]|].
    destruct (String.length (pending (RespBody resp)) =? 0)%nat; [exact Hy|].
    destruct (Unmarshal (pending (RespBody resp)) v) as [v' [e|]]; cbn;
      [split; [exact Hy | split; [reflexivity | discriminate]] | exact Hy].
Qed.

Section ClientFacts.

Context {HC : Type} {T : Type} `{JSON T} `{JSON APIError}
        {B : Type} `{JSONMarshal B}.

Variable send : HC -> HTTPRequest -> Response + lib_error.
Variable newRequestError : string -> string -> option lib_error.
Variable Encode : Values -> string.
Variable StatusText : Z -> string.

(** X10.  What a caller of [Do] can conclude from its result.  Without error, a
    2xx response was received.  An [APIError] means a response outside 2xx,
    and carries its status.  A [RequestError] either has no status (the
    request was not built or not answered; [HTTPStatusCode] is then 500) or
    has the status of a 2xx response whose body could not be read or
    decoded.  No other kind of error is returned, and the body of every
    response received is closed. *)
Theorem Do_outcome :
  forall (c : Client HC) (method url : string) (body : option B)
         (result result' : option T) (e : option error)
         (final : option Response),
    Do send newRequestError StatusText c method url body result
    = (e, result', final) ->
    match e with
    | None =>
        exists resp, final = Some resp /\ is2xx (StatusCode resp)
    | Some (API a) =>
        exists resp, final = Some resp /\ ~ is2xx (StatusCode resp)
                     /\ APIError_HTTPStatusCode a = StatusCode resp
    | Some (Request r) =>
        req_Err r <> None
        /\ ((final = None /\ RequestError_HTTPStatusCode r = 500%Z
             /\ result' = result)
            \/ exists resp, final = Some resp /\ is2xx (StatusCode resp)
                            /\ RequestError_HTTPStatusCode r = StatusCode resp)
    | Some _ => False
    end
    /\ forall resp, final = Some resp -> body_closed (RespBody resp) = true.
Proof.
  intros c method url body result result' e final. unfold Do.
  destruct (createRequest newRequestError c method url body) as [req|err].
  2:{ intros E. inversion E; subst. split; [|discriminate].
      split; [discriminate|]. left. repeat split. }
  destruct (send (httpClient c) req) as [resp|err].
  2:{ intros E. inversion E; subst. split; [|discriminate].
      split; [discriminate|]. left. repeat split. }
  pose proof (handleResponse_error_kind StatusText resp result) as Hk.
  pose proof (handleResponse_status StatusText resp result) as Hs.
  destruct (rest.handleResponse StatusText resp result) as [[e0 r0] resp'].
  cbn [fst snd] in Hk, Hs. cbn. intros E. inversion E; subst. clear E.
  split; [|intros resp0 E0; inversion E0; reflexivity].
  destruct e as [[x|a|r|x]|]; try contradiction.
  - destruct Hk as [Hn Ha]. eexists. split; [reflexivity|]. cbn.
    rewrite Hs. unfold APIError_HTTPStatusCode. auto.
  - destruct Hk as (Hy & Hr & Hne). split; [exact Hne|]. right.
    eexists. split; [reflexivity|]. cbn. rewrite Hs. split; [exact Hy|].
    unfold RequestError_HTTPStatusCode. rewrite Hr.
    destruct (Z.eqb_spec (StatusCode resp) 0); [|reflexivity].
    unfold is2xx in Hy. lia.
  - eexists. split; [reflexivity|]. cbn. now rewrite Hs.
Qed.

(** X11.  [DoRaw] hands over a 2xx response as it received it, open and unread.
    For any other response it returns the [APIError] with the status of the
    response and closes the body. *)
Theorem DoRaw_outcome :
  forall (c : Client HC) (method url : string) (body : option B)
         (req : HTTPRequest) (resp : Response),
    createRequest newRequestError c method url body = inl req ->
    send (httpClient c) req = inl resp ->
    (is2xx (StatusCode resp) ->
     DoRaw send newRequestError StatusText c method url body
     = (inl resp, Some resp))
    /\ (~ is2xx (StatusCode resp) ->
        exists (a : APIError) (resp' : Response),
          DoRaw send newRequestError StatusText c method url body
          = (inr (API a), Some resp')
          /\ APIError_HTTPStatusCode a = StatusCode resp
          /\ body_closed (RespBody resp') = true).
Proof.
  intros c method url body req resp Hreq Hsend. unfold DoRaw.
  rewrite Hreq, Hsend. split; intros Hc.
  - now rewrite (is_2xx _ Hc).
  - rewrite (non_2xx _ Hc).
    destruct (parseErrorResponse_status StatusText resp) as [a [Ha Hs]].
    destruct (rest.parseErrorResponse StatusText resp) as [e resp'].
    cbn [fst] in Ha. subst e. cbn. do 2 eexists. repeat split. exact Hs.
Qed.


(** ** URLs *)

Lemma TrimRight_slashes (n : nat) :
  forall s : string, TrimRight (s ++ slashes n) "/"%char = TrimRight s "/"%char.
Proof.
  induction n as [|n IH]; intros s; cbn [slashes].
  - now rewrite append_nil_r.
  - change (String "/"%char (slashes n))
      with (String "/"%char EmptyString ++ slashes n).
    rewrite <- append_assoc, IH. unfold TrimRight. rewrite reverse_snoc.
    reflexivity.
Qed.

Lemma dropLeading_slashes (n : nat) (s : string) :
  dropLeading "/"%char (slashes n ++ s) = dropLeading "/"%char s.
Proof. induction n as [|n IH]; [reflexivity | exact IH]. Qed.

Lemma options_keep_baseURL (options : list (ClientOption HC)) :
  Forall (fun o => forall c, baseURL (o c) = baseURL c) options ->
  forall c0, baseURL (fold_left (fun c o => o c) options c0) = baseURL c0.
Proof.
  induction 1 as [|o os Ho _ IH]; intros c0; [reflexivity|].
  cbn [fold_left]. now rewrite IH, Ho.
Qed.

(** X13.  However many slashes end the base URL and begin the endpoint, the URL
    has the base without them, one slash, and the endpoint without them;
    the query follows when there are parameters. *)
Theorem BuildURL_joins_with_one_slash :
  forall (dc : HC) (base endpoint : string) (n m : nat)
         (options : list (ClientOption HC)) (params : Values),
    Forall (fun o => forall c, baseURL (o c) = baseURL c) options ->
    BuildURL Encode (New dc (base ++ slashes n) options)
      (slashes m ++ endpoint) params
    = TrimRight base "/"%char ++ "/" ++ dropLeading "/"%char endpoint
      ++ match params with
         | [] => EmptyString
         | _ :: _ => "?" ++ Encode params
         end.
Proof.
  intros dc base endpoint n m options params Hopts.
  unfold BuildURL, New. rewrite (options_keep_baseURL options Hopts).
  cbn [baseURL]. rewrite TrimRight_slashes, dropLeading_slashes.
  destruct params.
  - now rewrite append_nil_r.
  - now rewrite !append_assoc.
Qed.

End ClientFacts.

(** * Error codes, read backwards *)

(** X14.  The code of an [APIError] tells the class of its status: each of the
    five named codes stands for one status, ["server_error"] for the
    statuses from 500 on, ["api_error"] for the others. *)
Theorem APIError_Code_determines_status :
  forall e : APIError,
    (APIError_Code e = "invalid_request" <-> api_StatusCode e = 400%Z)
    /\ (APIError_Code e = "authentication_error" <-> api_StatusCode e = 401%Z)
    /\ (APIError_Code e = "permission_error" <-> api_StatusCode e = 403%Z)
    /\ (APIError_Code e = "not_found" <-> api_StatusCode e = 404%Z)
    /\ (APIError_Code e = "rate_limit_exceeded" <-> api_StatusCode e = 429%Z)
    /\ (APIError_Code e = "server_error" <-> (500 <= api_StatusCode e)%Z)
    /\ (APIError_Code e = "api_error"
        <-> (api_StatusCode e < 500)%Z
            /\ ~ In (api_StatusCode e) [400; 401; 403; 404; 429]%Z).
Proof.
  intros e. unfold APIError_Code, http.StatusBadRequest,
    http.StatusUnauthorized, http.StatusForbidden, http.StatusNotFound,
    http.StatusTooManyRequests.
  rewrite Z.geb_leb. cbn [In].
  destruct (Z.eqb_spec (api_StatusCode e) 400);
    [repeat split; intros; try discriminate; try lia|].
  destruct (Z.eqb_spec (api_StatusCode e) 401);
    [repeat split; intros; try discriminate; try lia|].
  destruct (Z.eqb_spec (api_StatusCode e) 403);
    [repeat split; intros; try discriminate; try lia|].
  destruct (Z.eqb_spec (api_StatusCode e) 404);
    [repeat split; intros; try discriminate; try lia|].
  destruct (Z.eqb_spec (api_StatusCode e) 429);
    [repeat split; intros; try discriminate; try lia|].
  destruct (Z.leb_spec 500 (api_StatusCode e));
    repeat split; intros; try discriminate; try lia.
Qed.

Lemma APIError_Code_server_error (e : APIError) :
  (500 <= api_StatusCode e)%Z <-> APIError_Code e = "server_error".
Proof.
  unfold APIError_Code, http.StatusBadRequest,
    http.StatusUnauthorized, http.StatusForbidden, http.StatusNotFound,
    http.StatusTooManyRequests.
  rewrite Z.geb_leb.
  repeat match goal with
         | |- context [(?a =? ?b)%Z] =>
             destruct (Z.eqb_spec a b); [split; [lia | discriminate]|]
         end.
  destruct (Z.leb_spec 500 (api_StatusCode e)); split; intros;
    try reflexivity; try discriminate; lia.
Qed.

(** * The retry policy *)





(** X16.  The default policy retries after every error of the transport; for a
    response received without such an error it retries exactly when the
    error the transport makes of that response has the code
    ["server_error"], so never after a 4xx response, 429 included.  Asked
    about no response and no error it panics. *)
Theorem DefaultRetryPolicy_retries_server_errors :
  forall (resp : option Response) (err : option error),
    (err <> None ->
     tabby.ShouldRetry tabby.DefaultRetryPolicy resp err = Some true)
    /\ (forall (H : JSON APIError) (StatusText : Z -> string)
               (r : Response) (a : APIError),
          resp = Some r -> err = None ->
          fst (rest.parseErrorResponse StatusText r) = API a ->
          (tabby.ShouldRetry tabby.DefaultRetryPolicy resp err = Some true
           <-> APIError_Code a = "server_error"))
    /\ (resp = None -> err = None ->
        tabby.ShouldRetry tabby.DefaultRetryPolicy resp err = None).
Proof.
  intros resp err. unfold tabby.ShouldRetry, tabby.DefaultRetryPolicy,
    tabby.RetryableFunc. split; [|split].
  - intros Hne. destruct err; [reflexivity | contradiction].
  - intros J StatusText r a -> -> Hparse.
    destruct (parseErrorResponse_status StatusText r) as [a' [Ha' Hs]].
    rewrite Hparse in Ha'. inversion Ha'; subst a'.
    unfold APIError_HTTPStatusCode in Hs.
    rewrite <- (APIError_Code_server_error a), Hs, Z.geb_leb, <- Z.leb_le.
    split; [intros E; now inversion E | now intros ->].
  - intros -> ->. reflexivity.
Qed.

(** * Configuring the client *)

Lemma last_cons_gen {A : Type} (v d : A) (vs : list A) :
  last (v :: vs) d = last vs v.
Proof.
  revert v d. induction vs as [|w vs IH]; intros v d; [reflexivity|].
  change (last (v :: w :: vs) d) with (last (w :: vs) d).
  now rewrite (IH w d), (IH w v).
Qed.

Lemma last_map_Some {A : Type} (l : list A) :
  forall a : A, last (map Some l) (Some a) = Some (last l a).
Proof.
  induction l as [|b l IH]; intros a; [reflexivity|].
  cbn [map]. now rewrite !last_cons_gen.
Qed.

Lemma applyOption_fields (o : tabby.Option) (s s' : tabby.state) :
  tabby.applyOption o s = Some s' ->
  tabby.restClient (tabby.impl s') = tabby.restClient (tabby.impl s)
  /\ tabby.auth (tabby.impl s')
     = match optionAuth o with
       | Some a => Some a
       | None => tabby.auth (tabby.impl s)
       end
  /\ tabby.baseURL (tabby.impl s')
     = match optionBaseURL o with
       | Some u => u
       | None => tabby.baseURL (tabby.impl s)
       end.
Proof.
  destruct o; cbn; intros E;
    try destruct (tabby.setTimeout _ _ _); try discriminate;
    inversion E; subst; cbn; auto.
Qed.

Lemma applyAll_fields (os : list tabby.Option) :
  forall s s' : tabby.state,
    tabby.applyAll os s = Some s' ->
    tabby.restClient (tabby.impl s') = tabby.restClient (tabby.impl s)
    /\ tabby.auth (tabby.impl s')
       = last (map Some (choose optionAuth os)) (tabby.auth (tabby.impl s))
    /\ tabby.baseURL (tabby.impl s')
       = last (choose optionBaseURL os) (tabby.baseURL (tabby.impl s)).
Proof.
  induction os as [|o os IH]; intros s s' Hs.
  - inversion Hs; subst. auto.
  - cbn [tabby.applyAll] in Hs.
    destruct (tabby.applyOption o s) as [s1|] eqn:Ho; [|discriminate].
    destruct (applyOption_fields o s s1 Ho) as (Hr & Ha & Hb).
    destruct (IH s1 s' Hs) as (Hr' & Ha' & Hb').
    rewrite Hr', Ha', Hb', Hr, Ha, Hb. cbn [choose].
    split; [reflexivity|]. split.
    + destruct (optionAuth o); [cbn [map]; now rewrite last_cons_gen | reflexivity].
    + destruct (optionBaseURL o); [now rewrite last_cons_gen | reflexivity].
Qed.

(** X17.  Of the options given to [NewClient], the last one that names a
    credential decides the authenticator and the last base URL decides the
    base URL; the REST client made from them sends that credential, or none
    when no option names one, to that base URL without its trailing
    slashes. *)
Theorem NewClient_last_option_wins :
  forall (h : tabby.store) (options : list tabby.Option) (s : tabby.state)
         (dc : tabby.pointer),
    tabby.NewClient h options = Some s ->
    let rc := fst (tabby.getRestClient dc s) in
    client.auth rc
    = Some (last (choose optionAuth options) auth.NoAuth)
    /\ client.baseURL rc
       = TrimRight (last (choose optionBaseURL options) "http://localhost:8080")
           "/"%char
    /\ client.httpClient rc = tabby.httpClient (tabby.impl s).
Proof.
  intros h options s dc Hs. unfold tabby.NewClient in Hs.
  destruct (applyAll_fields options _ s Hs) as (Hr & Ha & Hb).
  cbn [tabby.impl tabby.restClient tabby.auth tabby.baseURL] in Hr, Ha, Hb.
  unfold tabby.getRestClient. rewrite Hr, Ha, Hb. cbn.
  repeat split.
  f_equal. destruct (choose optionAuth options) as [|a l]; [reflexivity|].
  cbn [map]. now rewrite !last_cons_gen, last_map_Some.
Qed.

(** X18.  The REST client is made at the first use and kept: whatever options
    are set afterwards, base URL and credentials included, [getRestClient]
    returns the client of the first use. *)
Theorem getRestClient_is_fixed_at_first_use :
  forall (dc : tabby.pointer) (s s2 : tabby.state)
         (options : list tabby.Option),
    tabby.applyAll options (snd (tabby.getRestClient dc s)) = Some s2 ->
    tabby.getRestClient dc s2 = (fst (tabby.getRestClient dc s), s2).
Proof.
  intros dc s s2 options Hs.
  destruct (applyAll_fields options _ s2 Hs) as (Hr & _ & _).
  assert (Hc : tabby.restClient (tabby.impl (snd (tabby.getRestClient dc s)))
               = Some (fst (tabby.getRestClient dc s))).
  { unfold tabby.getRestClient.
    destruct (tabby.restClient (tabby.impl s)) eqn:E; cbn; [exact E | reflexivity]. }
  unfold tabby.getRestClient at 1. now rewrite Hr, Hc.
Qed.

Lemma nth_error_set {A : Type} (l : list A) (i : nat) (x y : A) :
  nth_error l i = Some y ->
  nth_error (firstn i l ++ x :: skipn (S i) l)%list i = Some x
  /\ forall j, j <> i ->
       nth_error (firstn i l ++ x :: skipn (S i) l)%list j = nth_error l j.
Proof.
  revert i. induction l as [|a l IH]; intros i Hi.
  - destruct i; discriminate.
  - destruct i as [|i].
    + cbn. split; [reflexivity|]. intros [|j] Hj; [contradiction | reflexivity].
    + cbn in Hi. destruct (IH i Hi) as [H1 H2]. cbn. split; [exact H1|].
      intros [|j] Hj; [reflexivity|]. cbn. apply H2. congruence.
Qed.

(** X19.  [WithTimeout] writes into the [http.Client] the client holds at that
    moment.  Behind [WithHTTPClient] it changes the caller's own client;
    before it, it changes the client that [WithHTTPClient] then replaces,
    and the caller's client keeps its timeout; with a nil client it panics.
    A REST client made earlier shares the [http.Client] and sees the new
    timeout. *)
Theorem WithTimeout_writes_through_the_pointer :
  forall (h : tabby.store) (i : nat) (own : tabby.http_Client)
         (t : tabby.Duration) (dc : tabby.pointer),
    nth_error h i = Some own ->
    (exists s,
        tabby.NewClient h [tabby.WithHTTPClient (Some i); tabby.WithTimeout t]
        = Some s
        /\ tabby.deref (tabby.clients s) (tabby.httpClient (tabby.impl s))
           = Some (tabby.mkHTTPClient t)
        /\ nth_error (tabby.clients s) i = Some (tabby.mkHTTPClient t))
    /\ (exists s,
           tabby.NewClient h [tabby.WithTimeout t; tabby.WithHTTPClient (Some i)]
           = Some s
           /\ tabby.deref (tabby.clients s) (tabby.httpClient (tabby.impl s))
              = Some own)
    /\ tabby.NewClient h [tabby.WithHTTPClient None; tabby.WithTimeout t] = None
    /\ (exists s1 s2,
           tabby.NewClient h [] = Some s1
           /\ tabby.applyOption (tabby.WithTimeout t)
                (snd (tabby.getRestClient dc s1)) = Some s2
           /\ tabby.deref (tabby.clients s2)
                (client.httpClient (fst (tabby.getRestClient dc s1)))
              = Some (tabby.mkHTTPClient t)).
Proof.
  intros h i own t dc Hi.
  assert (Hi' : nth_error (h ++ [tabby.mkHTTPClient (30 * tabby.Second)%Z])%list i
                = Some own).
  { rewrite nth_error_app1; [exact Hi|]. apply nth_error_Some. congruence. }
  assert (Hnew : nth_error (h ++ [tabby.mkHTTPClient (30 * tabby.Second)%Z])%list
                   (List.length h)
                 = Some (tabby.mkHTTPClient (30 * tabby.Second)%Z)).
  { rewrite nth_error_app2 by lia. now rewrite Nat.sub_diag. }
  assert (Hlt : i < List.length h) by (apply nth_error_Some; congruence).
  unfold tabby.NewClient.
  set (h0 := (h ++ [tabby.mkHTTPClient (30 * tabby.Second)%Z])%list) in *.
  split; [|split; [|split]].
  - cbn [tabby.applyAll tabby.applyOption tabby.setTimeout tabby.impl
           tabby.clients tabby.httpClient].
    rewrite Hi'. eexists. split; [reflexivity|].
    cbn [tabby.impl tabby.clients tabby.httpClient tabby.deref].
    destruct (nth_error_set _ i (tabby.mkHTTPClient t) own Hi') as [H1 _].
    split; exact H1.
  - cbn [tabby.applyAll tabby.applyOption tabby.setTimeout tabby.impl
           tabby.clients tabby.httpClient].
    rewrite Hnew. eexists. split; [reflexivity|].
    cbn [tabby.impl tabby.clients tabby.httpClient tabby.deref].
    destruct (nth_error_set _ (List.length h) (tabby.mkHTTPClient t) _ Hnew)
      as [_ H2].
    rewrite H2 by lia. exact Hi'.
  - reflexivity.
  - cbn [tabby.applyAll]. do 2 eexists. split; [reflexivity|].
    unfold tabby.getRestClient.
    cbn [tabby.applyOption tabby.setTimeout tabby.impl tabby.clients
           tabby.httpClient tabby.restClient fst snd].
    rewrite Hnew. split; [reflexivity|].
    cbn [tabby.clients tabby.deref].
    destruct (nth_error_set _ (List.length h) (tabby.mkHTTPClient t) _ Hnew)
      as [H1 _].
    exact H1.
Qed.

(** * The chat service *)


Section ChatFacts.

Context {Req : Type} `{JSONMarshal Req} {Resp : Type} `{JSON Resp}
        `{JSON APIError} {Chunk : Type} {JC : JSON Chunk}.

Variable send : tabby.pointer -> HTTPRequest -> Response + lib_error.
Variable newRequestError : string -> string -> option lib_error.
Variable Encode : client.Values -> string.
Variable StatusText : Z -> string.
Variable setStream : Req -> bool -> Req.


(** X21.  A base URL set after the first use reaches the streaming calls only:
    the service made afterwards streams to the new base URL and sends its
    other calls with the REST client of the first use. *)
Theorem base_URL_change_reaches_streaming_only :
  forall (dc : tabby.pointer) (s s2 : tabby.state) (url : string),
    tabby.applyOption (tabby.WithBaseURL url) (snd (tabby.Chat dc s)) = Some s2 ->
    tabby.svc_client (fst (tabby.Chat dc s2))
    = tabby.svc_client (fst (tabby.Chat dc s))
    /\ tabby.chat_streamURL (fst (tabby.Chat dc s2))
       = url ++ "/v1/chat/completions".
Proof.
  intros dc s s2 url. unfold tabby.Chat, tabby.getRestClient.
  destruct (tabby.restClient (tabby.impl s)) as [rc|] eqn:Hr;
    cbn; rewrite ?Hr; intros E; inversion E; subst; cbn; rewrite ?Hr;
    split; reflexivity.
Qed.

(** X22.  [CreateStream] with a request the transport can send and a response
    received: for a 2xx response it returns the stream over that response,
    and if the body is made of well-formed events the stream delivers their
    items in order and then [io.EOF]; for any other response it returns no
    stream but the [APIError] with the status of the response, wrapped. *)
Theorem chat_CreateStream_outcome :
  forall (svc : tabby.chatService) (req : Req) (httpreq : HTTPRequest)
         (resp : Response),
    client.createRequest newRequestError (tabby.svc_client svc) "POST"
      (tabby.chat_streamURL svc) (Some (setStream req true)) = inl httpreq ->
    send (client.httpClient (tabby.svc_client svc)) httpreq = inl resp ->
    (is2xx (StatusCode resp) ->
     forall (evs : list block) (items : list Chunk),
       forallb well_formed evs = true ->
       pending (RespBody resp) = stream_bytes evs ->
       read_err (RespBody resp) = None ->
       decoded evs = map (fun i => (i, None)) items ->
       exists s s' : Stream,
         tabby.chat_CreateStream send newRequestError StatusText setStream
           svc None req = inl s
         /\ recvN (T := Chunk) (List.length evs) s = (map inl items, s')
         /\ fst (Recv (T := Chunk) s') = inr (Lib io_EOF))
    /\ (~ is2xx (StatusCode resp) ->
        forall ctx : option lib_error,
        exists a : APIError,
          tabby.chat_CreateStream send newRequestError StatusText setStream
            svc ctx req
          = inr (tabby.Errorf "failed to create chat completion stream" (API a))
          /\ APIError_HTTPStatusCode a = StatusCode resp).
Proof.
  intros svc req httpreq resp Hreq Hsend.
  unfold tabby.chat_CreateStream, client.DoRaw. rewrite Hreq, Hsend. split.
  - intros Hc evs items Hwf Hp Hr Hdec. rewrite (is_2xx _ Hc). cbn [fst].
    exists (stream.New None resp). rewrite (New_live resp Hr), Hp.
    rewrite <- (append_nil_r (stream_bytes evs)).
    rewrite (recvN_blocks evs items EmptyString _ _ _ Hwf Hdec).
    eexists. split; [reflexivity|]. split; [reflexivity|].
    now rewrite Recv_exhausted.
  - intros Hc ctx. rewrite (non_2xx _ Hc).
    destruct (parseErrorResponse_status StatusText resp) as [a [Ha Hs]].
    destruct (rest.parseErrorResponse StatusText resp) as [e resp'].
    cbn [fst] in Ha. subst e. cbn. exists a. split; [reflexivity | exact Hs].
Qed.

(** X23.  [Create] with a request the transport can send and a 2xx response whose
    body can be read: without content (status 204 or an empty body) it
    returns the zero response and no error; a body that decodes gives the
    decoded response; a body that does not decode gives the wrapped
    [RequestError] around the cause. *)
Theorem chat_Create_outcome :
  forall (svc : tabby.chatService) (req : Req) (httpreq : HTTPRequest)
         (resp : Response),
    client.createRequest newRequestError (tabby.svc_client svc) "POST"
      (client.BuildURL Encode (tabby.svc_client svc) "v1/chat/completions" [])
      (Some (setStream req false)) = inl httpreq ->
    send (client.httpClient (tabby.svc_client svc)) httpreq = inl resp ->
    is2xx (StatusCode resp) ->
    read_err (RespBody resp) = None ->
    let call := tabby.chat_Create (Resp := Resp) send newRequestError Encode
                  StatusText setStream svc req in
    (StatusCode resp = 204%Z \/ pending (RespBody resp) = EmptyString ->
     call = inl zero)
    /\ (StatusCode resp <> 204%Z -> pending (RespBody resp) <> EmptyString ->
        forall (v : Resp) (cause : option lib_error),
          Unmarshal (pending (RespBody resp)) zero = (v, cause) ->
          call = match cause with
                 | None => inl v
                 | Some c =>
                     inr (tabby.Errorf "failed to create chat completion"
                            (Request (mkRequestError
                                        "failed to unmarshal response body"
                                        (StatusCode resp) (Some c))))
                 end).
Proof.
  intros svc req httpreq resp Hreq Hsend Hc Hr call. subst call.
  unfold tabby.chat_Create, client.Post, client.Do. rewrite Hreq, Hsend.
  unfold rest.handleResponse. rewrite (is_2xx _ Hc).
  unfold http.StatusNoContent, ReadAll. rewrite Hr, length_zero.
  split.
  - intros [E|E].
    + rewrite E. reflexivity.
    + destruct (Z.eqb_spec (StatusCode resp) 204); [reflexivity|].
      rewrite E. reflexivity.
  - intros H204 Hne v cause Hdec.
    destruct (Z.eqb_spec (StatusCode resp) 204); [contradiction|].
    destruct (isEmpty (pending (RespBody resp))) eqn:He;
      [apply isEmpty_true in He; contradiction|].
    rewrite Hdec. destruct cause; reflexivity.
Qed.

End ChatFacts.

(** * The further properties on sample inputs *)

Lemma bytes_behind_last_LF_are_dropped_witness :
  fst (recvN (H := uint64.json) 3
         (with_tail (live ("data: 1" ++ nl ++ nl) None false 200) "data: 2"))
  = fst (recvN (H := uint64.json) 3
           (live ("data: 1" ++ nl ++ nl) None false 200)).
Proof.
  apply (bytes_behind_last_LF_are_dropped (H := uint64.json) 3
           (live ("data: 1" ++ nl ++ nl) None false 200) "data: 2").
  reflexivity.
Defined.

Lemma Recv_skips_blank_lines_witness :
  Recv (H := uint64.json)
    (live (blank_lines [nl; crnl; nl]
           ++ block_bytes (mkBlock ["data: 1"] nl) ++ "data: 2") None false 200)
  = (inl 1%N, live "data: 2" None false 200)
  /\ Recv (H := uint64.json) (live (blank_lines [nl; crnl; nl]) None false 200)
     = (inr (Lib io_EOF), live EmptyString None false 200).
Proof.
  apply (Recv_skips_blank_lines (H := uint64.json) [nl; crnl; nl]
           (mkBlock ["data: 1"] nl) "data: 2" 1%N None false 200);
    reflexivity.
Defined.

Lemma Recv_continues_after_decode_failure_witness :
  recvN (H := uint64.json) 2
    (live (block_bytes (mkBlock ["data: {invalid json}"] nl)
           ++ block_bytes (mkBlock ["data: 2"] nl) ++ EmptyString) None false 200)
  = ([inr (Stream_ (mkStreamError "failed to unmarshal event data"
                      (Some (opaque_error
                               "json: cannot unmarshal into Go value of type uint64"))));
      inl 2%N],
     live EmptyString None false 200).
Proof.
  apply (Recv_continues_after_decode_failure (H := uint64.json)
           (mkBlock ["data: {invalid json}"] nl) (mkBlock ["data: 2"] nl)
           EmptyString 0%N 2%N);
    reflexivity.
Defined.

Lemma Recv_read_failure_witness :
  Recv (H := uint64.json)
    (mkStream None
       (mkResponse 200
          (mkBody (event_text ["data: 1"] ++ "da")
             (Some (opaque_error "connection reset by peer")) None false))
       false)
  = (inr (Stream_ (mkStreamError "error reading from stream"
                     (Some (opaque_error "connection reset by peer")))),
     mkStream None
       (mkResponse 200
          (mkBody EmptyString (Some (opaque_error "connection reset by peer"))
             None false))
       false).
Proof.
  apply (Recv_read_failure (H := uint64.json) ["data: 1"] "da"
           (opaque_error "connection reset by peer") None false 200);
    [reflexivity | reflexivity | discriminate].
Defined.

Lemma EOF_is_stable_witness :
  IsClosed (live EmptyString None false 200) = false
  /\ Recv (H := uint64.json) (live EmptyString None false 200)
     = (inr (Lib io_EOF), live EmptyString None false 200).
Proof.
  apply (EOF_is_stable (H := uint64.json)
           (live (nl ++ "partial") None false 200)
           (live EmptyString None false 200)).
  reflexivity.
Defined.

Lemma parseEvent_ignores_comments_and_bare_lines_witness :
  parseEvent (event_text ["id: 1"; ": keep-alive"; "data: 2"])
  = parseEvent (event_text ["id: 1"; "data: 2"]).
Proof.
  apply (parseEvent_ignores_comments_and_bare_lines
           ["id: 1"] ["data: 2"] ": keep-alive");
    reflexivity.
Defined.

Lemma Recv_accepts_CRLF_witness :
  Recv (H := uint64.json)
    (live (block_bytes (mkBlock (map addCR ["id: 7"; "data: 2"]) crnl)
           ++ "rest") None false 200)
  = (inl 2%N, live "rest" None false 200).
Proof.
  apply (Recv_accepts_CRLF (H := uint64.json)
           (mkBlock ["id: 7"; "data: 2"] nl) "rest" 2%N None false 200);
    reflexivity.
Defined.

Lemma Do_outcome_witness :
  let out :=
    client.Do (H := uint64.json) (H0 := samples.apiErrorJSON)
      (H1 := samples2.boolMarshal)
      (samples2.answer samples2.notFound) samples2.anyRequest
      samples.StatusText samples2.restClient "GET"
      "http://localhost:8080/v1/health" (@None bool) (Some 0%N) in
  (exists resp,
      snd out = Some resp /\ ~ is2xx (StatusCode resp)
      /\ APIError_HTTPStatusCode (mkAPIError 404 "bad field" None EmptyString)
         = StatusCode resp)
  /\ forall resp, snd out = Some resp -> body_closed (RespBody resp) = true.
Proof.
  exact (Do_outcome (H := uint64.json) (H0 := samples.apiErrorJSON)
           (H1 := samples2.boolMarshal)
           (samples2.answer samples2.notFound) samples2.anyRequest
           samples.StatusText samples2.restClient "GET"
           "http://localhost:8080/v1/health" (@None bool) (Some 0%N)
           _ _ _ eq_refl).
Defined.

Lemma DoRaw_outcome_witness :
  client.DoRaw (H0 := samples.apiErrorJSON) (H1 := samples2.boolMarshal)
    (samples2.answer samples2.events) samples2.anyRequest samples.StatusText
    samples2.restClient "POST" "http://localhost:8080/v1/chat/completions"
    (Some true)
  = (inl samples2.events, Some samples2.events).
Proof.
  apply (DoRaw_outcome (H0 := samples.apiErrorJSON)
           (H1 := samples2.boolMarshal)
           (samples2.answer samples2.events) samples2.anyRequest
           samples.StatusText samples2.restClient "POST"
           "http://localhost:8080/v1/chat/completions" (Some true)
           (mkRequest "POST" "http://localhost:8080/v1/chat/completions"
              (Some "true")
              [("X-Api-Key", ["secret"]); ("Accept", ["application/json"]);
               ("Content-Type", ["application/json"])])
           samples2.events);
    [reflexivity | reflexivity | unfold is2xx; cbn; lia].
Defined.


Lemma BuildURL_joins_with_one_slash_witness :
  client.BuildURL samples2.noQuery
    (client.New (@None nat) ("http://localhost:8080" ++ slashes 2)
       [client.WithAuth (Some (auth.BearerTokenAuthenticator "t"))])
    (slashes 3 ++ "v1/models") []
  = TrimRight "http://localhost:8080" "/"%char ++ "/"
    ++ dropLeading "/"%char "v1/models" ++ EmptyString.
Proof.
  apply (BuildURL_joins_with_one_slash samples2.noQuery (@None nat)
           "http://localhost:8080" "v1/models" 2 3
           [client.WithAuth (Some (auth.BearerTokenAuthenticator "t"))] []).
  repeat constructor.
Defined.

Lemma APIError_Code_determines_status_witness :
  api_StatusCode ErrNotFound = 404%Z
  /\ APIError_Code (mkAPIError 503 "busy" None EmptyString) = "server_error".
Proof.
  split.
  - apply (APIError_Code_determines_status ErrNotFound). reflexivity.
  - apply (APIError_Code_determines_status
             (mkAPIError 503 "busy" None EmptyString)).
    cbn. lia.
Defined.


Lemma DefaultRetryPolicy_retries_server_errors_witness :
  tabby.ShouldRetry tabby.DefaultRetryPolicy None
    (Some (Lib (opaque_error "connection refused"))) = Some true
  /\ (tabby.ShouldRetry tabby.DefaultRetryPolicy
        (Some (mkResponse 503 (samples.body EmptyString))) None = Some true
      <-> APIError_Code (mkAPIError 503 EmptyString None EmptyString)
          = "server_error").
Proof.
  split.
  - apply (DefaultRetryPolicy_retries_server_errors None
             (Some (Lib (opaque_error "connection refused")))).
    discriminate.
  - apply (DefaultRetryPolicy_retries_server_errors
             (Some (mkResponse 503 (samples.body EmptyString))) None)
      with (H := samples.apiErrorJSON) (StatusText := samples.StatusText)
           (r := mkResponse 503 (samples.body EmptyString));
      reflexivity.
Defined.

Lemma NewClient_last_option_wins_witness :
  let rc := fst (tabby.getRestClient None sampleState) in
  client.auth rc = Some (auth.BearerTokenAuthenticator "t")
  /\ client.baseURL rc = TrimRight "http://tabby:5000/" "/"%char
  /\ client.httpClient rc = Some 0.
Proof.
  apply (NewClient_last_option_wins [] sampleOptions sampleState None).
  reflexivity.
Defined.

Lemma getRestClient_is_fixed_at_first_use_witness :
  tabby.getRestClient None
    (tabby.mkState [tabby.mkHTTPClient (30 * tabby.Second)%Z]
       (tabby.mkClientImpl "http://other" (Some 0)
          (Some (auth.AdminKeyAuthenticator "a")) None
          (Some (fst (tabby.getRestClient None sampleState)))))
  = (fst (tabby.getRestClient None sampleState),
     tabby.mkState [tabby.mkHTTPClient (30 * tabby.Second)%Z]
       (tabby.mkClientImpl "http://other" (Some 0)
          (Some (auth.AdminKeyAuthenticator "a")) None
          (Some (fst (tabby.getRestClient None sampleState))))).
Proof.
  apply (getRestClient_is_fixed_at_first_use None sampleState _
           [tabby.WithBaseURL "http://other"; tabby.WithAdminKey "a"]).
  reflexivity.
Defined.

Lemma WithTimeout_writes_through_the_pointer_witness :
  (exists s,
      tabby.NewClient [samples2.ownClient]
        [tabby.WithHTTPClient (Some 0); tabby.WithTimeout 9%Z] = Some s
      /\ tabby.deref (tabby.clients s) (tabby.httpClient (tabby.impl s))
         = Some (tabby.mkHTTPClient 9%Z)
      /\ nth_error (tabby.clients s) 0 = Some (tabby.mkHTTPClient 9%Z))
  /\ (exists s,
         tabby.NewClient [samples2.ownClient]
           [tabby.WithTimeout 9%Z; tabby.WithHTTPClient (Some 0)] = Some s
         /\ tabby.deref (tabby.clients s) (tabby.httpClient (tabby.impl s))
            = Some samples2.ownClient).
Proof.
  split;
    apply (WithTimeout_writes_through_the_pointer [samples2.ownClient] 0
             samples2.ownClient 9%Z None);
    reflexivity.
Defined.


Lemma base_URL_change_reaches_streaming_only_witness :
  tabby.svc_client
    (fst (tabby.Chat None
            (tabby.mkState [tabby.mkHTTPClient (30 * tabby.Second)%Z]
               (tabby.mkClientImpl "http://other" (Some 0)
                  (Some (auth.BearerTokenAuthenticator "t")) None
                  (Some (fst (tabby.getRestClient None sampleState)))))))
  = tabby.svc_client (fst (tabby.Chat None sampleState))
  /\ tabby.chat_streamURL
       (fst (tabby.Chat None
               (tabby.mkState [tabby.mkHTTPClient (30 * tabby.Second)%Z]
                  (tabby.mkClientImpl "http://other" (Some 0)
                     (Some (auth.BearerTokenAuthenticator "t")) None
                     (Some (fst (tabby.getRestClient None sampleState)))))))
     = "http://other" ++ "/v1/chat/completions".
Proof.
  apply (base_URL_change_reaches_streaming_only None sampleState _ "http://other").
  reflexivity.
Defined.

Lemma chat_CreateStream_outcome_witness :
  (exists s s' : Stream,
      tabby.chat_CreateStream (H := samples2.boolMarshal)
        (H1 := samples.apiErrorJSON) (samples2.answer samples2.events)
        samples2.anyRequest samples.StatusText samples2.setStream
        samples2.service None false = inl s
      /\ recvN (H := uint64.json) 2 s = ([inl 1%N; inl 2%N], s')
      /\ fst (Recv (H := uint64.json) s') = inr (Lib io_EOF)).
Proof.
  apply (chat_CreateStream_outcome (H := samples2.boolMarshal)
           (H1 := samples.apiErrorJSON) (JC := uint64.json)
           (samples2.answer samples2.events) samples2.anyRequest
           samples.StatusText samples2.setStream samples2.service false
           (mkRequest "POST" "http://localhost:8080/v1/chat/completions"
              (Some "true")
              [("X-Api-Key", ["secret"]); ("Accept", ["application/json"]);
               ("Content-Type", ["application/json"])])
           samples2.events eq_refl eq_refl)
    with (evs := samples.twoEvents) (items := [1%N; 2%N]);
    try reflexivity.
  unfold is2xx. cbn. lia.
Defined.

Lemma chat_Create_outcome_witness :
  tabby.chat_Create (H := samples2.boolMarshal) (H0 := uint64.json)
    (H1 := samples.apiErrorJSON)
    (samples2.answer (mkResponse 200 (samples.body EmptyString)))
    samples2.anyRequest samples2.noQuery samples.StatusText samples2.setStream
    samples2.service true
  = inl 0%N.
Proof.
  apply (chat_Create_outcome (H := samples2.boolMarshal) (H0 := uint64.json)
           (H1 := samples.apiErrorJSON)
           (samples2.answer (mkResponse 200 (samples.body EmptyString)))
           samples2.anyRequest samples2.noQuery samples.StatusText
           samples2.setStream samples2.service true
           (mkRequest "POST" "http://localhost:8080/v1/chat/completions"
              (Some "false")
              [("X-Api-Key", ["secret"]); ("Accept", ["application/json"]);
               ("Content-Type", ["application/json"])])
           (mkResponse 200 (samples.body EmptyString)));
    try reflexivity.
  - unfold is2xx. cbn. lia.
  - right. reflexivity.
Defined.
